(** * did.plugins.public_inbox: thread discovery over a public-inbox archive

    A shallow embedding of [did/plugins/public_inbox.py] and the properties
    of its message wrapper, its deduplicator, its thread resolver and its two
    statistics.

    Python values are modelled as follows.
    - [str] is [string]; a character is a code point below 256.
    - [None]-or-value is [option].
    - A raised exception is the [Raise] branch of [PyResult].
    - A generator is the list of the values it yields together with the
      exception that ended it, if any ([Gen]).
    - The [dict] of [_unique_messages] is a [gmap]; the [list] [found] of
      [get_all_threads] is a [list].
    - The network, gzip, the mbox parser and the two [email.utils] parsers
      are the fields of the class [Externals]; the network threads a state
      of type [World], so that two requests for one URL may answer
      differently. *)

From Stdlib Require Import ZArith Ascii String DecimalString.
From stdpp Require Import base option list gmap strings.

(** ** Exceptions and results *)

Inductive exn : Type :=
  | AttributeError
  | TypeError
  | ValueError
  | RequestException
  | BadGzipFile
  | OSError.

#[global] Instance exn_eq_dec : EqDecision exn.
Proof. solve_decision. Defined.

Inductive PyResult (A : Type) : Type :=
  | Ok (a : A)
  | Raise (e : exn).

Arguments Ok {A} a.
Arguments Raise {A} e.

#[global] Instance PyResult_ret : MRet PyResult := fun _ a => Ok a.
#[global] Instance PyResult_bind : MBind PyResult := fun _ _ f r =>
  match r with
  | Ok a => f a
  | Raise e => Raise e
  end.
#[global] Instance PyResult_fmap : FMap PyResult := fun _ _ f r =>
  match r with
  | Ok a => Ok (f a)
  | Raise e => Raise e
  end.

(** A generator run to its end: what it yielded, and the exception that
    stopped it ([None] for a normal return). *)
Record Gen (A : Type) : Type := MkGen {
  yielded : list A;
  raised : option exn
}.

Arguments MkGen {A} yielded raised.
Arguments yielded {A} g.
Arguments raised {A} g.

Definition gen_return {A} : Gen A := MkGen [] None.
Definition gen_raise {A} (e : exn) : Gen A := MkGen [] (Some e).
Definition gen_yield {A} (a : A) (rest : Gen A) : Gen A :=
  MkGen (a :: yielded rest) (raised rest).

(** ** Python [str] methods *)

Module PyStr.

Definition code (c : ascii) : N := N_of_ascii c.

(** [c in chars] for a character. *)
Fixpoint mem (c : ascii) (chars : string) : bool :=
  match chars with
  | EmptyString => false
  | String d chars' => if decide (c = d) then true else mem c chars'
  end.

(** [any(p(c) for c in s)] and [all(p(c) for c in s)]. *)
Fixpoint existsb (p : ascii -> bool) (s : string) : bool :=
  match s with
  | EmptyString => false
  | String c s' => p c || existsb p s'
  end.

Fixpoint forallb (p : ascii -> bool) (s : string) : bool :=
  match s with
  | EmptyString => true
  | String c s' => p c && forallb p s'
  end.

Definition is_empty (s : string) : bool :=
  match s with
  | EmptyString => true
  | String _ _ => false
  end.

(** [s.lstrip(chars)] and [s.rstrip(chars)], with the set of characters
    given as a predicate. *)
Fixpoint lstrip (p : ascii -> bool) (s : string) : string :=
  match s with
  | EmptyString => EmptyString
  | String c s' => if p c then lstrip p s' else s
  end.

Fixpoint rstrip (p : ascii -> bool) (s : string) : string :=
  match s with
  | EmptyString => EmptyString
  | String c s' =>
      let r := rstrip p s' in
      if is_empty r && p c then EmptyString else String c r
  end.

Definition strip (p : ascii -> bool) (s : string) : string :=
  rstrip p (lstrip p s).

(** [s.replace(c, "")] for every [c] of a set: the characters of the set
    are removed. *)
Fixpoint remove (p : ascii -> bool) (s : string) : string :=
  match s with
  | EmptyString => EmptyString
  | String c s' => if p c then remove p s' else String c (remove p s')
  end.

(** The string cut at the first character of [s] that satisfies [p]:
    [(s[:i], s[i:])] for the least such index [i], and [(s, "")] when
    there is none. *)
Fixpoint break (p : ascii -> bool) (s : string) : string * string :=
  match s with
  | EmptyString => (EmptyString, EmptyString)
  | String c s' =>
      if p c then (EmptyString, s)
      else let '(a, b) := break p s' in (String c a, b)
  end.

Definition is_char (c : ascii) : ascii -> bool :=
  fun d => bool_decide (d = c).

(** [s.split(sep)] for a one-character separator. *)
Fixpoint split_char (sep : ascii) (s : string) : list string :=
  match s with
  | EmptyString => [EmptyString]
  | String c s' =>
      if decide (c = sep) then EmptyString :: split_char sep s'
      else match split_char sep s' with
           | [] => [String c EmptyString]
           | w :: ws => String c w :: ws
           end
  end.

(** [sep.join(parts)]. *)
Fixpoint join (sep : string) (parts : list string) : string :=
  match parts with
  | [] => EmptyString
  | [w] => w
  | w :: ws => w +:+ sep +:+ join sep ws
  end.

(** [s[:n] == prefix] where [n = len(prefix)]. *)
Fixpoint startswith (prefix s : string) : bool :=
  match prefix, s with
  | EmptyString, _ => true
  | String a p', String b s' => bool_decide (a = b) && startswith p' s'
  | String _ _, EmptyString => false
  end.

(** [s[n:]]. *)
Fixpoint drop (n : nat) (s : string) : string :=
  match n, s with
  | O, _ => s
  | S n', String _ s' => drop n' s'
  | S _, EmptyString => EmptyString
  end.

(** [c.lower()] on code points below 256: A-Z and the Latin-1 capitals
    0xC0-0xDE (0xD7, the multiplication sign, apart) move up by 32. *)
Definition lower_char (c : ascii) : ascii :=
  let n := code c in
  if ((65 <=? n) && (n <=? 90))%N then ascii_of_N (n + 32)
  else if ((192 <=? n) && (n <=? 222) && negb (n =? 215))%N
       then ascii_of_N (n + 32)
  else c.

Fixpoint lower (s : string) : string :=
  match s with
  | EmptyString => EmptyString
  | String c s' => String (lower_char c) (lower s')
  end.

(** [c.isspace()] on code points below 256. *)
Definition isspace (c : ascii) : bool :=
  let n := code c in
  ((9 <=? n) && (n <=? 13) || (28 <=? n) && (n <=? 32)
   || (n =? 133) || (n =? 160))%N.

(** The characters on which [str.splitlines] breaks a line, below 256:
    LF, VT, FF, CR, FS, GS, RS and NEL. *)
Definition islinebreak (c : ascii) : bool :=
  let n := code c in
  ((10 <=? n) && (n <=? 13) || (28 <=? n) && (n <=? 30) || (n =? 133))%N.

(** [s.splitlines()]: the lines without their ends; CR LF is one end; a
    last line that is empty is not reported. *)
Fixpoint splitlines (s : string) : list string :=
  match s with
  | EmptyString => []
  | String c s' =>
      if islinebreak c then
        EmptyString ::
          match s' with
          | String d s'' =>
              if bool_decide (c = "013"%char) && bool_decide (d = "010"%char)
              then splitlines s''
              else splitlines s'
          | EmptyString => []
          end
      else match splitlines s' with
           | [] => [String c EmptyString]
           | l :: ls => String c l :: ls
           end
  end.

(** [s.split()]: the maximal runs of characters that are not white
    space. *)
Fixpoint split (s : string) : list string :=
  match s with
  | EmptyString => []
  | String c s' =>
      if isspace c then split s'
      else match s' with
           | EmptyString => [String c EmptyString]
           | String d _ =>
               if isspace d then String c EmptyString :: split s'
               else match split s' with
                    | [] => [String c EmptyString]
                    | w :: ws => String c w :: ws
                    end
           end
  end.

(** ["%s" % v] for a [str] or [None]. *)
Definition format_s (v : option string) : string :=
  match v with
  | Some s => s
  | None => "None"
  end.

(** ["%0<width>d" % n] for a natural number. *)
Fixpoint zfill (width : nat) (s : string) : string :=
  match width with
  | O => s
  | S w => if decide (String.length s < width)%nat
           then String "0"%char (zfill w s) else s
  end.

Definition format_d (width : nat) (n : nat) : string :=
  zfill width (NilEmpty.string_of_uint (Nat.to_uint n)).

End PyStr.

(** ** [urllib.parse]

    [urljoin] and what it calls, after CPython 3.11. The check of a netloc
    with both brackets ([_check_bracketed_netloc], which parses an IP
    address) is a parameter: it answers whether the netloc passes.
    [_checknetloc] is left out: it can only fail on a netloc holding a
    character that NFKC normalisation expands to one of [/?#@:], and no
    code point below 256 does. *)

Module UrlParse.
Import PyStr.

Definition uses_relative : list string :=
  [""; "ftp"; "http"; "gopher"; "nntp"; "imap"; "wais"; "file"; "https";
   "shttp"; "mms"; "prospero"; "rtsp"; "rtspu"; "sftp"; "svn"; "svn+ssh";
   "ws"; "wss"].

Definition uses_netloc : list string :=
  [""; "ftp"; "http"; "gopher"; "nntp"; "telnet"; "imap"; "wais"; "file";
   "mms"; "https"; "shttp"; "snews"; "prospero"; "rtsp"; "rtspu"; "rsync";
   "svn"; "svn+ssh"; "sftp"; "nfs"; "git"; "git+ssh"; "ws"; "wss"].

Definition uses_params : list string :=
  [""; "ftp"; "hdl"; "prospero"; "http"; "imap"; "https"; "shttp"; "rtsp";
   "rtspu"; "sip"; "sips"; "mms"; "sftp"; "tel"].

Definition scheme_chars : string :=
  "abcdefghijklmnopqrstuvwxyzABCDEFGHIJKLMNOPQRSTUVWXYZ0123456789+-.".

(** [_WHATWG_C0_CONTROL_OR_SPACE]: the code points 0 to 32. *)
Definition c0_control_or_space (c : ascii) : bool := (code c <=? 32)%N.

(** [_UNSAFE_URL_BYTES_TO_REMOVE]: tab, CR and LF. *)
Definition unsafe_url_byte (c : ascii) : bool :=
  bool_decide (c = "009"%char) || bool_decide (c = "013"%char)
  || bool_decide (c = "010"%char).

(** [c.isascii() and c.isalpha()]. *)
Definition ascii_alpha (c : ascii) : bool :=
  let n := code c in
  ((65 <=? n) && (n <=? 90) || (97 <=? n) && (n <=? 122))%N.

Definition in_list (s : string) (l : list string) : bool :=
  bool_decide (s ∈ l).

Record SplitResult : Type := MkSplit {
  s_scheme : string;
  s_netloc : string;
  s_path : string;
  s_query : string;
  s_fragment : string
}.

Record ParseResult : Type := MkParse {
  scheme : string;
  netloc : string;
  path : string;
  params : string;
  query : string;
  fragment : string
}.

(** [url.split(c, 1)] when [c in url]: the parts before and after the
    first [c]; [None] when [c] does not occur. *)
Definition split_once (c : ascii) (url : string) : option (string * string) :=
  match break (is_char c) url with
  | (a, String _ b) => Some (a, b)
  | (_, EmptyString) => None
  end.

(** The scheme of [urlsplit]: [url[:i].lower()] and [url[i+1:]] when the
    first colon is at [i > 0], [url[0]] is an ASCII letter and every
    character before the colon is a scheme character. *)
Definition split_scheme (url : string) : option (string * string) :=
  match split_once ":" url with
  | Some (String c0 pre, rest) =>
      if ascii_alpha c0 && forallb (fun c => mem c scheme_chars) (String c0 pre)
      then Some (lower (String c0 pre), rest)
      else None
  | _ => None
  end.

(** [_splitnetloc(url, 2)]. *)
Definition _splitnetloc (url : string) : string * string :=
  break (fun c => mem c "/?#") (drop 2 url).

(** [_splitparams(url)], called when [';' in url]: the first semicolon at
    or after the last slash cuts the path from its parameters. *)
Fixpoint rsplit_slash (url : string) : string * string :=
  match url with
  | EmptyString => (EmptyString, EmptyString)
  | String c url' =>
      let '(d, l) := rsplit_slash url' in
      if bool_decide (c = "/"%char) || negb (is_empty d)
      then (String c d, l) else (EmptyString, String c l)
  end.

Definition _splitparams (url : string) : string * string :=
  let '(d, l) := rsplit_slash url in
  match split_once ";" l with
  | Some (a, b) => (d +:+ a, b)
  | None => (url, EmptyString)
  end.

Section WithBracketCheck.

Variable _check_bracketed_netloc : string -> bool.

Definition urlsplit (url scheme : string) : PyResult SplitResult :=
  let url := lstrip c0_control_or_space url in
  let scheme := strip c0_control_or_space scheme in
  let url := remove unsafe_url_byte url in
  let scheme := remove unsafe_url_byte scheme in
  let '(scheme, url) :=
    match split_scheme url with
    | Some (sch, rest) => (sch, rest)
    | None => (scheme, url)
    end in
  '(netloc, url) ←
    (if startswith "//" url then
       let '(netloc, url) := _splitnetloc url in
       let open := existsb (is_char "[") netloc in
       let close := existsb (is_char "]") netloc in
       if open && negb close || close && negb open then Raise ValueError
       else if open && close && negb (_check_bracketed_netloc netloc)
            then Raise ValueError
       else Ok (netloc, url)
     else Ok (EmptyString, url));
  let '(url, fragment) :=
    match split_once "#" url with
    | Some (a, b) => (a, b)
    | None => (url, EmptyString)
    end in
  let '(url, query) :=
    match split_once "?" url with
    | Some (a, b) => (a, b)
    | None => (url, EmptyString)
    end in
  Ok (MkSplit scheme netloc url query fragment).

Definition urlparse (url scheme : string) : PyResult ParseResult :=
  r ← urlsplit url scheme;
  let '(url, params) :=
    if in_list (s_scheme r) uses_params && existsb (is_char ";") (s_path r)
    then _splitparams (s_path r)
    else (s_path r, EmptyString) in
  Ok (MkParse (s_scheme r) (s_netloc r) url params (s_query r)
        (s_fragment r)).

Definition urlunsplit (scheme netloc url query fragment : string) : string :=
  let url :=
    if negb (is_empty netloc)
       || negb (is_empty scheme) && in_list scheme uses_netloc
          && negb (startswith "//" url)
    then
      let url :=
        if negb (is_empty url) && negb (startswith "/" url)
        then "/" +:+ url else url in
      "//" +:+ netloc +:+ url
    else url in
  let url := if negb (is_empty scheme) then scheme +:+ ":" +:+ url else url in
  let url := if negb (is_empty query) then url +:+ "?" +:+ query else url in
  if negb (is_empty fragment) then url +:+ "#" +:+ fragment else url.

Definition urlunparse (p : ParseResult) : string :=
  let url :=
    if negb (is_empty (params p)) then path p +:+ ";" +:+ params p
    else path p in
  urlunsplit (scheme p) (netloc p) url (query p) (fragment p).

(** [base_parts = bpath.split('/')], without its last item when that is
    not empty. *)
Definition base_parts (bpath : string) : list string :=
  let parts := split_char "/" bpath in
  match last parts with
  | Some EmptyString => parts
  | _ => removelast parts
  end.

(** [segments[1:-1] = filter(None, segments[1:-1])]. *)
Definition filter_middle (segments : list string) : list string :=
  match segments with
  | first :: (_ :: _) as rest =>
      first :: List.filter (fun s => negb (is_empty s)) (removelast rest)
        ++ option_list (last rest)
  | _ => segments
  end.

(** The loop of [urljoin] over the segments, from the left. *)
Fixpoint resolve_segments (resolved : list string) (segments : list string)
  : list string :=
  match segments with
  | [] => resolved
  | seg :: segments' =>
      if decide (seg = "..") then resolve_segments (removelast resolved) segments'
      else if decide (seg = ".") then resolve_segments resolved segments'
      else resolve_segments (resolved ++ [seg]) segments'
  end.

Definition urljoin (base url : string) : PyResult string :=
  if is_empty base then Ok url
  else if is_empty url then Ok base
  else
    b ← urlparse base EmptyString;
    u ← urlparse url (scheme b);
    if negb (bool_decide (scheme u = scheme b))
       || negb (in_list (scheme u) uses_relative)
    then Ok url
    else if in_list (scheme u) uses_netloc && negb (is_empty (netloc u))
    then Ok (urlunparse u)
    else
      let netloc :=
        if in_list (scheme u) uses_netloc then netloc b else netloc u in
      if is_empty (path u) && is_empty (params u) then
        let query := if is_empty (query u) then query b else query u in
        Ok (urlunparse
              (MkParse (scheme u) netloc (path b) (params b) query
                 (fragment u)))
      else
        let segments :=
          if startswith "/" (path u) then split_char "/" (path u)
          else filter_middle (base_parts (path b) ++ split_char "/" (path u)) in
        let resolved_path := resolve_segments [] segments in
        let resolved_path :=
          match last segments with
          | Some seg =>
              if bool_decide (seg = ".") || bool_decide (seg = "..")
              then resolved_path ++ [EmptyString] else resolved_path
          | None => resolved_path
          end in
        let joined := join "/" resolved_path in
        Ok (urlunparse
              (MkParse (scheme u) netloc
                 (if is_empty joined then "/" else joined)
                 (params u) (query u) (fragment u))).

End WithBracketCheck.

End UrlParse.

(** ** [datetime] *)

Module datetime.

(** [datetime.date]: compared as the tuple (year, month, day). *)
Record date : Type := MkDate {
  year : nat;
  month : nat;
  day : nat
}.

(** [datetime.datetime]: a date, a time of day and the offset from UTC in
    minutes ([None] for a naive value). *)
Record datetime : Type := MkDatetime {
  dt_date : date;
  hour : nat;
  minute : nat;
  second : nat;
  utcoffset : option Z
}.

#[global] Instance date_eq_dec : EqDecision date.
Proof. solve_decision. Defined.

(** [date._cmp]. *)
Definition cmp (a b : date) : comparison :=
  match Nat.compare (year a) (year b) with
  | Eq =>
      match Nat.compare (month a) (month b) with
      | Eq => Nat.compare (day a) (day b)
      | c => c
      end
  | c => c
  end.

(** [a >= b] and [a <= b] on dates. *)
Definition ge (a b : date) : bool :=
  match cmp a b with Lt => false | _ => true end.

Definition le (a b : date) : bool :=
  match cmp a b with Gt => false | _ => true end.

(** [date.isoformat()]: ["%04d-%02d-%02d"]. *)
Definition isoformat (d : date) : string :=
  PyStr.format_d 4 (year d) +:+ "-" +:+ PyStr.format_d 2 (month d)
  +:+ "-" +:+ PyStr.format_d 2 (day d).

End datetime.

(** ** [mailbox] and [did.base] *)

(** A record of an mbox: its header fields in the order of the file, and
    the rest of the message. *)
Record mboxMessage : Type := MkMbox {
  _headers : list (string * string);
  _payload : string
}.

#[global] Instance mboxMessage_eq_dec : EqDecision mboxMessage.
Proof. solve_decision. Defined.

(** [msg[name]], that is [email.message.Message.get]: the value of the
    first field whose name equals [name] when both are lowered, else
    [None]. *)
Definition getitem (m : mboxMessage) (name : string) : option string :=
  snd <$> List.find
            (fun kv => bool_decide (PyStr.lower (fst kv) = PyStr.lower name))
            (_headers m).

Module Base.

(** [did.base.Date]: only its attribute [date] is read. *)
Record Date : Type := MkDate { date : datetime.date }.

(** [did.base.User]: only its attribute [email] is read. *)
Record User : Type := MkUser { email : string }.

End Base.

(** ** What the module calls outside itself *)

Class Externals : Type := {
  (** The state of everything behind the network. *)
  World : Type;
  (** [bytes]: the body of a response. *)
  Content : Type;
  (** [requests.get(url).content]. *)
  requests_get : string -> World -> PyResult Content * World;
  (** [requests.post(url, headers=..., params=...).content]. *)
  requests_post :
    string -> list (string * string) -> list (string * string) ->
    World -> PyResult Content * World;
  (** [gzip.decompress]. *)
  gzip_decompress : Content -> PyResult Content;
  (** The records of the mbox written to a temporary file:
      [mailbox.mbox(tmp.name).values()]. *)
  mailbox_mbox : Content -> PyResult (list mboxMessage);
  (** [email.utils.parseaddr]: the pair (real name, address). *)
  parseaddr : option string -> PyResult (string * string);
  (** [email.utils.parsedate_to_datetime]. *)
  parsedate_to_datetime : option string -> PyResult datetime.datetime;
  (** [urllib.parse._check_bracketed_netloc] passes. *)
  _check_bracketed_netloc : string -> bool
}.

(** ** [class Message] *)

Record Message : Type := MkMessage { msg : mboxMessage }.

#[global] Instance Message_eq_dec : EqDecision Message.
Proof. solve_decision. Defined.

Module Message.

Definition __msg_id (self : Message) (keyid : string) : option string :=
  match getitem (msg self) keyid with
  | None => None
  | Some msgid =>
      Some (PyStr.rstrip (PyStr.is_char ">")
              (PyStr.lstrip (PyStr.is_char "<") msgid))
  end.

Definition id (self : Message) : option string :=
  __msg_id self "Message-Id".

Definition parent_id (self : Message) : option string :=
  __msg_id self "In-Reply-To".

(** [subject.splitlines()] on [None] raises [AttributeError]. *)
Definition subject (self : Message) : PyResult string :=
  match getitem (msg self) "Subject" with
  | None => Raise AttributeError
  | Some subject =>
      let subject := PyStr.join " " (PyStr.splitlines subject) in
      let subject := PyStr.join " " (PyStr.split subject) in
      Ok subject
  end.

Definition date `{Externals} (self : Message) : PyResult datetime.datetime :=
  parsedate_to_datetime (getitem (msg self) "Date").

Definition is_thread_root (self : Message) : bool :=
  bool_decide (parent_id self = None).

Definition is_from_user `{Externals} (self : Message) (user : string)
  : PyResult bool :=
  '(_, msg_from) ← parseaddr (getitem (msg self) "From");
  '(_, user_addr) ← parseaddr (Some user);
  Ok (bool_decide (user_addr = msg_from)).

Definition is_between_dates `{Externals} (self : Message)
    (since until : Base.Date) : PyResult bool :=
  d ← date self;
  let msg_date := datetime.dt_date d in
  Ok (datetime.ge msg_date (Base.date since)
      && datetime.le msg_date (Base.date until)).

End Message.

(** ** [_unique_messages] *)

(** The loop of [_unique_messages] from a given state of the dictionary
    [msgs]. *)
Fixpoint unique_loop (msgs : gmap (option string) Message)
    (mbox : list mboxMessage) : list Message :=
  match mbox with
  | [] => []
  | raw :: rest =>
      let m := MkMessage raw in
      let id := Message.id m in
      match msgs !! id with
      | None => m :: unique_loop (<[id := m]> msgs) rest
      | Some _ => unique_loop msgs rest
      end
  end.

Definition _unique_messages (mbox : list mboxMessage) : list Message :=
  unique_loop ∅ mbox.

(** ** [class PublicInbox] *)

Record PublicInbox : Type := MkPublicInbox {
  url : string;
  user : Base.User
}.

Module PublicInbox.
Section Methods.
Context `{Externals}.

Definition __get_url (self : PublicInbox) (path : string) : PyResult string :=
  UrlParse.urljoin _check_bracketed_netloc (url self) path.

Definition _get_message_url (self : PublicInbox) (m : Message)
  : PyResult string :=
  __get_url self ("/r/" +:+ PyStr.format_s (Message.id m) +:+ "/").

Definition __get_mbox_from_content (content : Content)
  : PyResult (list mboxMessage) :=
  content ← gzip_decompress content;
  mailbox_mbox content.

(** The loop of [__get_thread_root]: the first record without a parent
    id, and [None] when the loop ends without a [return]. *)
Definition first_parentless (mbox : list mboxMessage) : option Message :=
  List.find (fun m => bool_decide (Message.parent_id m = None))
    (MkMessage <$> mbox).

Definition __get_thread_root (self : PublicInbox) (m : Message) (w : World)
  : PyResult (option Message) * World :=
  match __get_url self ("/all/" +:+ PyStr.format_s (Message.id m)
                        +:+ "/t.mbox.gz") with
  | Raise e => (Raise e, w)
  | Ok url =>
      match requests_get url w with
      | (Raise e, w') => (Raise e, w')
      | (Ok content, w') =>
          (first_parentless <$> __get_mbox_from_content content, w')
      end
  end.

(** The loop of [get_all_threads] over the candidates still to come,
    from a given state of the list [found] and of the world. *)
Fixpoint threads_loop (self : PublicInbox) (candidates : list Message)
    (found : list (option string)) (w : World) : Gen Message * World :=
  match candidates with
  | [] => (gen_return, w)
  | m :: rest =>
      let msg_id := Message.id m in
      if bool_decide (msg_id ∈ found) then threads_loop self rest found w
      else if negb (Message.is_thread_root m) then
        match __get_thread_root self m w with
        | (Raise e, w') => (gen_raise e, w')
        | (Ok None, w') => (gen_raise AttributeError, w')
        | (Ok (Some root), w') =>
            let root_id := Message.id root in
            if bool_decide (root_id ∈ found)
            then threads_loop self rest found w'
            else
              let '(g, w'') :=
                threads_loop self rest (found ++ [root_id]) w' in
              (gen_yield root g, w'')
        end
      else
        let '(g, w') := threads_loop self rest (found ++ [msg_id]) w in
        (gen_yield m g, w')
  end.

Definition get_all_threads (self : PublicInbox) (since until : Base.Date)
    (w : World) : Gen Message * World :=
  let since_str := datetime.isoformat (Base.date since) in
  let until_str := datetime.isoformat (Base.date until) in
  match __get_url self "/all/" with
  | Raise e => (gen_raise e, w)
  | Ok search_url =>
      match
        requests_post search_url [("Content-Length", "0")]
          [("q", "(f:" +:+ Base.email (user self) +:+ " AND d:"
                 +:+ since_str +:+ ".." +:+ until_str +:+ ")");
           ("x", "m")] w
      with
      | (Raise e, w') => (gen_raise e, w')
      | (Ok content, w') =>
          match __get_mbox_from_content content with
          | Raise e => (gen_raise e, w')
          | Ok mbox => threads_loop self (_unique_messages mbox) [] w'
          end
      end
  end.

End Methods.
End PublicInbox.

(** ** [class NewThreads] and [class InvolvedThreads] *)

(** [[m for m in g if cond(m)]] for a generator [g] run to its end: the
    condition is evaluated on every value in turn; the first exception,
    of the condition or of the generator, is the outcome. *)
Fixpoint comprehension {A} (cond : A -> PyResult bool) (items : list A)
    (stop : option exn) : PyResult (list A) :=
  match items with
  | [] =>
      match stop with
      | None => Ok []
      | Some e => Raise e
      end
  | a :: rest =>
      keep ← cond a;
      kept ← comprehension cond rest stop;
      Ok (if keep : bool then a :: kept else kept)
  end.

(** The objects the two statistics read: [self.parent.pi], [self.user] and
    [self.options]. *)
Record Stats : Type := MkStats {
  pi : PublicInbox;
  stats_user : Base.User;
  since : Base.Date;
  until : Base.Date
}.

Section Fetch.
Context `{Externals}.

(** [m.is_from_user(...) and m.is_between_dates(...)]: the date is looked
    at only when the sender matches. *)
Definition started_cond (self : Stats) (m : Message) : PyResult bool :=
  from_user ← Message.is_from_user m (Base.email (stats_user self));
  if from_user : bool
  then Message.is_between_dates m (since self) (until self)
  else Ok false.

(** [not m.is_from_user(...) or not m.is_between_dates(...)]. *)
Definition involved_cond (self : Stats) (m : Message) : PyResult bool :=
  from_user ← Message.is_from_user m (Base.email (stats_user self));
  if negb from_user then Ok true
  else negb <$> Message.is_between_dates m (since self) (until self).

(** [NewThreads.fetch]: the value assigned to [self.stats], or the
    exception. The state of the world after the call is not kept. *)
Definition NewThreads_fetch (self : Stats) (w : World)
  : PyResult (list Message) :=
  let g :=
    (PublicInbox.get_all_threads (pi self) (since self) (until self) w).1 in
  comprehension (started_cond self) (yielded g) (raised g).

(** [InvolvedThreads.fetch]. *)
Definition InvolvedThreads_fetch (self : Stats) (w : World)
  : PyResult (list Message) :=
  let g :=
    (PublicInbox.get_all_threads (pi self) (since self) (until self) w).1 in
  comprehension (involved_cond self) (yielded g) (raised g).

End Fetch.

(** ** [show] of [NewThreads] and of [InvolvedThreads]

    The two methods have the same text. What [show] does is the sequence
    of its calls of [self.header()] and [utils.item(text, level=...,
    options=...)], and the exception that ended it, if any. Of the options
    passed to [utils.item], the width is kept: [self.options.width] for
    the subject, and 0 for the link, which is printed with a copy of the
    options whose width is set to 0. *)

Inductive output : Type :=
  | Header
  | Item (text : string) (level : nat) (width : nat).

#[global] Instance output_eq_dec : EqDecision output.
Proof. solve_decision. Defined.

Section Show.
Context `{Externals}.

(** The loop of [show] over [self.stats]. *)
Fixpoint show_loop (self : Stats) (width : nat) (stats : list Message)
  : Gen output :=
  match stats with
  | [] => gen_return
  | m :: rest =>
      match Message.subject m with
      | Raise e => gen_raise e
      | Ok subject =>
          gen_yield (Item subject 1 width)
            match PublicInbox._get_message_url (pi self) m with
            | Raise e => gen_raise e
            | Ok link => gen_yield (Item link 2 0) (show_loop self width rest)
            end
      end
  end.

(** [show], for the values of [self.options.width], [self._error] and
    [self.stats]. *)
Definition show (self : Stats) (width : nat) (error : bool)
    (stats : list Message) : Gen output :=
  if negb error && bool_decide (stats = []) then gen_return
  else gen_yield Header (show_loop self width stats).

End Show.

(** ** [class PublicInboxStats] *)

(** [ReportError(message)]. *)
Inductive ReportError : Type := MkReportError (message : string).

(** [dict(pairs)]: a later pair replaces an earlier one with the same
    key. *)
Definition dict (pairs : list (string * string)) : gmap string string :=
  foldl (fun d kv => <[kv.1 := kv.2]> d) ∅ pairs.

(** The two statistics of the group, each with its option name. *)
Inductive stat : Type :=
  | InvolvedThreads (option : string)
  | NewThreads (option : string).

Record PublicInboxStats : Type := MkPublicInboxStats {
  group_url : string;
  group_pi : PublicInbox;
  group_stats : list stat
}.

(** [PublicInboxStats.__init__], after [StatsGroup.__init__] has set
    [self.user]; [section] is what [Config().section(option)] returned. *)
Definition PublicInboxStats_init (option : string) (user : Base.User)
    (section : list (string * string)) : ReportError + PublicInboxStats :=
  let config := dict section in
  match config !! "url" with
  | None => inl (MkReportError ("No url in the [" +:+ option +:+ "] section"))
  | Some url =>
      inr (MkPublicInboxStats url (MkPublicInbox url user)
             [InvolvedThreads (option +:+ "-involved");
              NewThreads (option +:+ "-started")])
  end.

(** * Specification vocabulary *)

#[global] Instance PyResult_eq_dec {A} `{EqDecision A} : EqDecision (PyResult A).
Proof. solve_decision. Defined.

(** The deduplicator in the words of its contract: going through the batch
    in order, a record is emitted exactly when no record before it has its
    id. [seen] holds the records gone through. *)
Fixpoint first_occurrences (seen : list mboxMessage) (mbox : list mboxMessage)
  : list Message :=
  match mbox with
  | [] => []
  | raw :: rest =>
      if bool_decide
           (Message.id (MkMessage raw) ∈ (Message.id ∘ MkMessage) <$> seen)
      then first_occurrences (seen ++ [raw]) rest
      else MkMessage raw :: first_occurrences (seen ++ [raw]) rest
  end.

(** [a < b] on dates: the order of the tuples (year, month, day). *)
Definition date_before (a b : datetime.date) : Prop :=
  datetime.year a < datetime.year b
  ∨ datetime.year a = datetime.year b
    ∧ (datetime.month a < datetime.month b
       ∨ datetime.month a = datetime.month b
         ∧ datetime.day a < datetime.day b).

(** A word: a string that is not empty and holds no white space. *)
Definition word (w : string) : Prop :=
  w ≠ "" ∧ PyStr.existsb PyStr.isspace w = false.



(** A string with no tab, CR or LF and none of the characters [chars]. *)
Definition url_plain (chars : string) (s : string) : Prop :=
  PyStr.existsb (fun c => PyStr.mem c chars || UrlParse.unsafe_url_byte c) s
  = false.

(** The first part of [get_all_threads]: the search request and the
    reading of its answer, up to the loop over the candidates. *)
Definition search `{Externals} (self : PublicInbox) (since until : Base.Date)
    (w : World) : PyResult (list mboxMessage) * World :=
  match PublicInbox.__get_url self "/all/" with
  | Raise e => (Raise e, w)
  | Ok search_url =>
      match
        requests_post search_url [("Content-Length", "0")]
          [("q", "(f:" +:+ Base.email (user self) +:+ " AND d:"
                 +:+ datetime.isoformat (Base.date since) +:+ ".."
                 +:+ datetime.isoformat (Base.date until) +:+ ")");
           ("x", "m")] w
      with
      | (Raise e, w') => (Raise e, w')
      | (Ok content, w') => (PublicInbox.__get_mbox_from_content content, w')
      end
  end.

(** What [show] prints for one message whose subject is [line.1] and
    whose link is [line.2]. *)
Definition shown (width : nat) (line : string * string) : list output :=
  [Item line.1 1 width; Item line.2 2 0].

(** Where a message yielded by [get_all_threads] can come from: it is one
    of the candidates, or it is the root that a thread fetch returned for
    a candidate that is not a root. *)
Definition resolved_from `{Externals} (self : PublicInbox)
    (candidates : list Message) (r : Message) : Prop :=
  r ∈ candidates
  ∨ ∃ m w0 w1, m ∈ candidates ∧ Message.is_thread_root m = false
               ∧ PublicInbox.__get_thread_root self m w0 = (Ok (Some r), w1).

(** [lines] holds, for each message of [stats] in turn, its subject and
    its link. *)
Definition lines_of `{Externals} (self : Stats) (stats : list Message)
    (lines : list (string * string)) : Prop :=
  Forall2 (fun m line =>
             Message.subject m = Ok line.1
             ∧ PublicInbox._get_message_url (pi self) m = Ok line.2)
    stats lines.

(** Path segments none of which is [.] or [..]. *)
Definition no_dots (segments : list string) : Prop :=
  Forall (fun seg => seg ≠ "." ∧ seg ≠ "..") segments.

(** * An archive held in memory

    The examples run the module against an archive given by the answer to
    the search and by a table of thread exports. A body is the list of
    records itself, or [None] for a body that is not gzip data; addresses
    are written bare in [From]; a [Date] header is looked up in a table. *)

Record MemArchive : Type := MkMemArchive {
  search_hits : list mboxMessage;
  thread_exports : list (string * list mboxMessage);
  calendar : list (string * datetime.datetime)
}.

Definition assoc {A} (key : string) (table : list (string * A)) : option A :=
  snd <$> List.find (fun kv => bool_decide (fst kv = key)) table.

Definition mem_externals (a : MemArchive) : Externals := {|
  World := unit;
  Content := option (list mboxMessage);
  requests_get := fun url w => (Ok (assoc url (thread_exports a)), w);
  requests_post := fun url headers params w => (Ok (Some (search_hits a)), w);
  gzip_decompress := fun content =>
    match content with
    | Some _ => Ok content
    | None => Raise BadGzipFile
    end;
  mailbox_mbox := fun content => Ok (default [] content);
  parseaddr := fun v => Ok (EmptyString, default EmptyString v);
  parsedate_to_datetime := fun v =>
    match v ≫= fun s => assoc s (calendar a) with
    | Some d => Ok d
    | None => Raise ValueError
    end;
  _check_bracketed_netloc := fun _ => true
|}.

Definition mail (id : string) (parent : option string) (sender date : string)
  : mboxMessage :=
  MkMbox
    ([("Message-Id", "<" +:+ id +:+ ">")]
     ++ match parent with
        | Some p => [("In-Reply-To", "<" +:+ p +:+ ">")]
        | None => []
        end
     ++ [("From", sender); ("Subject", "Re: " +:+ id); ("Date", date)])
    EmptyString.


Definition march (day hour : nat) : datetime.datetime :=
  datetime.MkDatetime (datetime.MkDate 2024 3 day) hour 0 0 (Some 0%Z).

Definition m0 : mboxMessage := mail "m0" None "alice@x.org" "Sun, 10 Mar 2024".
Definition m3a : mboxMessage := mail "m3a" (Some "m0") "alice@x.org" "Mon, 11 Mar 2024".
Definition m3b : mboxMessage := mail "m3b" (Some "m0") "alice@x.org" "Tue, 12 Mar 2024".
Definition m5 : mboxMessage := mail "m5" None "bob@x.org" "Mon, 11 Mar 2024".
Definition m7 : mboxMessage := mail "m7" (Some "m6") "alice@x.org" "Tue, 12 Mar 2024".
Definition m8 : mboxMessage := mail "m8" None "alice@x.org" "Sat, 09 Mar 2024".
Definition m9 : mboxMessage := mail "m9" None "alice@x.org" "Wed, 13 Mar 2024".

(** The search finds two replies of one thread, a root, a reply whose
    thread export holds no root, and one more root. *)
Definition lore : MemArchive := {|
  search_hits := [m3a; m3b; m5; m7; m8];
  thread_exports :=
    [("https://lore.kernel.org/all/m3a/t.mbox.gz", [m0; m3a; m3b]);
     ("https://lore.kernel.org/all/m3b/t.mbox.gz", [m0; m3a; m3b]);
     ("https://lore.kernel.org/all/m7/t.mbox.gz", [m7])];
  calendar :=
    [("Sat, 09 Mar 2024", march 9 23);
     ("Sun, 10 Mar 2024", march 10 0);
     ("Mon, 11 Mar 2024", march 11 12);
     ("Tue, 12 Mar 2024", march 12 23);
     ("Wed, 13 Mar 2024", march 13 0)]
|}.

(** The same archive without the reply that has no root. *)
Definition lore_sound : MemArchive := {|
  search_hits := [m3a; m3b; m5; m8];
  thread_exports := thread_exports lore;
  calendar := calendar lore
|}.

Definition alice : Base.User := Base.MkUser "alice@x.org".

Definition lore_inbox : PublicInbox :=
  MkPublicInbox "https://lore.kernel.org" alice.

Definition day (d : nat) : Base.Date := Base.MkDate (datetime.MkDate 2024 3 d).

Definition report : Stats := MkStats lore_inbox alice (day 10) (day 12).


(** Two threads started by bob, one with a date that does not parse. *)
Definition m6 : mboxMessage := mail "m6" None "bob@x.org" "some day".

Definition lore_bob : MemArchive := {|
  search_hits := [m5; m6];
  thread_exports := [];
  calendar := calendar lore
|}.

(** A subject folded over two lines, the same subject on one line, a
    blank subject and a record with no [Subject] field. *)
Definition folded : mboxMessage :=
  MkMbox [("Message-Id", "<m11>");
          ("Subject", "[PATCH]" +:+ String "010"%char "  fix   it ")]
    EmptyString.

Definition flat : mboxMessage :=
  MkMbox [("Message-Id", "<m12>"); ("Subject", "[PATCH] fix it")] EmptyString.

Definition blank : mboxMessage :=
  MkMbox [("Message-Id", "<m13>"); ("Subject", "   ")] EmptyString.

Definition untitled : mboxMessage :=
  MkMbox [("Message-Id", "<m14>"); ("From", "alice@x.org")] EmptyString.

(** * Facts about the [str] methods *)

Module PyStrFacts.
Import PyStr.

Lemma str_app_nil_l (s : string) : "" +:+ s = s.
Proof. reflexivity. Qed.

Lemma str_app_cons (c : ascii) (a b : string) :
  String c a +:+ b = String c (a +:+ b).
Proof. reflexivity. Qed.

Lemma str_app_nil_r (s : string) : s +:+ "" = s.
Proof. induction s as [|c s IH]; [done|]. by rewrite str_app_cons, IH. Qed.

Lemma str_app_assoc (a b c : string) : (a +:+ b) +:+ c = a +:+ b +:+ c.
Proof. induction a as [|x a IH]; [done|]. by rewrite !str_app_cons, IH. Qed.

Lemma join_cons_cons (sep w : string) (v : string) (ws : list string) :
  join sep (w :: v :: ws) = w +:+ sep +:+ join sep (v :: ws).
Proof. reflexivity. Qed.

(** *** [break] *)

Lemma break_app (p : ascii → bool) (s : string) :
  (break p s).1 +:+ (break p s).2 = s.
Proof.
  induction s as [|c s IH]; [done|]. simpl.
  destruct (p c); [done|]. destruct (break p s) as [a b]. simpl in *.
  by rewrite str_app_cons, IH.
Qed.

Lemma break_none (p : ascii → bool) (s : string) :
  existsb p s = false → break p s = (s, "").
Proof.
  induction s as [|c s IH]; [done|]. simpl. intros [Hc Hs]%orb_false_iff.
  by rewrite Hc, (IH Hs).
Qed.

(** *** [split_char] *)

Lemma split_char_app (sep : ascii) (a b : string) :
  existsb (is_char sep) a = false →
  split_char sep (a +:+ String sep b) = a :: split_char sep b.
Proof.
  induction a as [|c a IH]; simpl; intros Ha.
  - by destruct (decide (sep = sep)).
  - apply orb_false_iff in Ha as [Hc Ha].
    unfold is_char in Hc. apply bool_decide_eq_false in Hc.
    destruct (decide (c = sep)); [done|]. by rewrite (IH Ha).
Qed.

(** *** [split] *)

Lemma split_space (c : ascii) (s : string) :
  isspace c = true → split (String c s) = split s.
Proof. intros Hc. simpl. by rewrite Hc. Qed.

Lemma split_nonempty (c : ascii) (s : string) :
  isspace c = false → split (String c s) ≠ [].
Proof.
  intros Hc. simpl. rewrite Hc. destruct s as [|d s]; [done|].
  destruct (isspace d); [done|]. by destruct (split (String d s)).
Qed.

Lemma split_app (a : string) (c : ascii) (b : string) :
  isspace c = true → split (a +:+ String c b) = split a ++ split b.
Proof.
  intros Hc. induction a as [|x a IH].
  - rewrite str_app_nil_l. by rewrite split_space.
  - rewrite str_app_cons. destruct (isspace x) eqn:Hx.
    + by rewrite !split_space.
    + destruct a as [|y a].
      * rewrite str_app_nil_l. simpl. by rewrite Hx, Hc.
      * rewrite str_app_cons in *. 
        change (split (String x (String y (a +:+ String c b)))) with
          (if isspace x then split (String y (a +:+ String c b))
           else if isspace y then String x "" :: split (String y (a +:+ String c b))
           else match split (String y (a +:+ String c b)) with
                | [] => [String x ""] | w :: ws => String x w :: ws end).
        change (split (String x (String y a))) with
          (if isspace x then split (String y a)
           else if isspace y then String x "" :: split (String y a)
           else match split (String y a) with
                | [] => [String x ""] | w :: ws => String x w :: ws end).
        rewrite Hx, IH. destruct (isspace y) eqn:Hy; [done|].
        pose proof (split_nonempty y a Hy).
        by destruct (split (String y a)).
Qed.

Lemma split_word (w : string) : word w → split w = [w].
Proof.
  intros [Hne Hw]. induction w as [|c w IH]; [done|].
  simpl in Hw. apply orb_false_iff in Hw as [Hc Hw].
  simpl. rewrite Hc. destruct w as [|d w]; [done|].
  assert (isspace d = false) as Hd.
  { simpl in Hw. by apply orb_false_iff in Hw as [? _]. }
  rewrite Hd. by rewrite IH.
Qed.

Lemma split_words (s : string) : Forall word (split s).
Proof.
  induction s as [|c s IH]; [constructor|].
  simpl. destruct (isspace c) eqn:Hc; [done|].
  assert (word (String c "")) as Hw1.
  { split; [done|]. simpl. by rewrite Hc. }
  destruct s as [|d s]; [by apply Forall_cons|].
  destruct (isspace d) eqn:Hd; [by apply Forall_cons|].
  destruct (split (String d s)) as [|w ws]; [by apply Forall_cons|].
  inversion IH as [|?? [Hne Hw] Hws]; subst. constructor; [|done].
  split; [done|]. simpl. by rewrite Hc, Hw.
Qed.

Lemma split_join (ws : list string) :
  Forall word ws → split (join " " ws) = ws.
Proof.
  induction 1 as [|w ws Hw Hws IH]; [done|].
  destruct ws as [|v ws].
  - by apply split_word.
  - rewrite join_cons_cons. change (" " +:+ ?x) with (String " " x).
    rewrite split_app by done. by rewrite IH, split_word.
Qed.

(** *** [splitlines] *)

Lemma islinebreak_isspace (c : ascii) : islinebreak c = true → isspace c = true.
Proof.
  by destruct c as [[] [] [] [] [] [] [] []]; vm_compute.
Qed.

Lemma break_hit (p : ascii → bool) (s : string) :
  (break p s).2 = "" ∨ ∃ c b, (break p s).2 = String c b ∧ p c = true.
Proof.
  induction s as [|c s IH]; [by left|]. simpl.
  destruct (p c) eqn:Hc; [right; eauto|].
  by destruct (break p s).
Qed.

Lemma splitlines_nil (s : string) : splitlines s = [] → s = "".
Proof.
  destruct s as [|c s]; [done|]. simpl.
  destruct (islinebreak c); [done|]. by destruct (splitlines s).
Qed.

Lemma splitlines_break (h : string) :
  h ≠ "" →
  ∃ r, splitlines h = (break islinebreak h).1 :: splitlines r
       ∧ split (break islinebreak h).2 = split r
       ∧ String.length r < String.length h.
Proof.
  induction h as [|c s IH]; [done|]. intros _. simpl.
  destruct (islinebreak c) eqn:Hc.
  - pose proof (islinebreak_isspace _ Hc) as Hsp. simpl. rewrite Hsp.
    destruct s as [|d s].
    + exists "". simpl. auto with lia.
    + destruct (bool_decide (c = "013"%char) && bool_decide (d = "010"%char)) eqn:Hcrlf.
      * exists s. apply andb_true_iff in Hcrlf as [_ Hd].
        apply bool_decide_eq_true in Hd. subst d.
        split; [done|]. split; [|simpl; lia]. by rewrite split_space.
      * exists (String d s). simpl. auto with lia.
  - destruct s as [|d s].
    + exists "". simpl. auto with lia.
    + destruct IH as (r & Hl & Hs & Hlen); [done|].
      exists r. rewrite Hl. destruct (break islinebreak (String d s)) as [a b].
      simpl in *. auto with lia.
Qed.

Lemma split_break (h : string) :
  split h = split (break islinebreak h).1 ++ split (break islinebreak h).2.
Proof.
  rewrite <-(break_app islinebreak h) at 1.
  destruct (break_hit islinebreak h) as [->|(c & b & -> & Hc)].
  - by rewrite str_app_nil_r, List.app_nil_r.
  - apply islinebreak_isspace in Hc. by rewrite split_app, split_space.
Qed.

Lemma split_join_splitlines (h : string) :
  split (join " " (splitlines h)) = split h.
Proof.
  remember (String.length h) as n eqn:Hn. revert h Hn.
  induction n as [n IH] using lt_wf_ind. intros h ->.
  destruct (decide (h = "")) as [->|Hne]; [done|].
  destruct (splitlines_break h Hne) as (r & Hl & Hs & Hlen).
  rewrite Hl, (split_break h), Hs.
  destruct (splitlines r) as [|l ls] eqn:Hr.
  - apply splitlines_nil in Hr as ->. simpl. by rewrite List.app_nil_r.
  - rewrite join_cons_cons. change (" " +:+ ?x) with (String " " x).
    rewrite split_app by done. f_equal. rewrite <-Hr. by eapply IH.
Qed.

(** *** Single spacing *)



End PyStrFacts.

(** * Facts about [urljoin] *)

Section UrlFacts.
Import PyStr PyStrFacts UrlParse.

Variable chk : string → bool.

Lemma existsb_app p a b : existsb p (a +:+ b) = existsb p a || existsb p b.
Proof.
  induction a as [|c a IH]; [done|]. rewrite str_app_cons. simpl.
  by rewrite IH, orb_assoc.
Qed.

Lemma existsb_weaken (p q : ascii → bool) s :
  (∀ c, q c = true → p c = true) → existsb p s = false → existsb q s = false.
Proof.
  intros Hpq. induction s as [|c s IH]; [done|]. simpl.
  intros [Hc Hs]%orb_false_iff. rewrite (IH Hs), orb_false_r.
  destruct (q c) eqn:Hq; [|done]. by rewrite (Hpq c Hq) in Hc.
Qed.

Lemma url_plain_char chars c s :
  mem c chars = true → url_plain chars s → existsb (is_char c) s = false.
Proof.
  intros Hc. apply existsb_weaken. intros d Hd.
  unfold is_char in Hd. apply bool_decide_eq_true in Hd. subst.
  by rewrite Hc.
Qed.

Lemma url_plain_safe chars s :
  url_plain chars s → existsb unsafe_url_byte s = false.
Proof. apply existsb_weaken. intros c ->. apply orb_true_r. Qed.

Lemma url_plain_mem chars chars' s :
  (∀ c, mem c chars' = true → mem c chars = true) →
  url_plain chars s → existsb (λ c, mem c chars') s = false.
Proof. intros Hsub. apply existsb_weaken. intros c Hc. by rewrite (Hsub c Hc). Qed.

Lemma remove_none p s : existsb p s = false → remove p s = s.
Proof.
  induction s as [|c s IH]; [done|]. simpl. intros [Hc Hs]%orb_false_iff.
  by rewrite Hc, (IH Hs).
Qed.

Lemma split_once_none c s : existsb (is_char c) s = false → split_once c s = None.
Proof. intros Hs. unfold split_once. by rewrite break_none. Qed.

Lemma split_scheme_not_alpha c s :
  ascii_alpha c = false → split_scheme (String c s) = None.
Proof.
  intros Hc. unfold split_scheme, split_once. simpl.
  destruct (is_char ":" c); [done|].
  destruct (break (is_char ":") s) as [a [|? b]]; [done|]. by rewrite Hc.
Qed.









End UrlFacts.

(** * The deduplicator *)

Section Dedup.

Local Abbreviation ids := (fmap (M := list) Message.id).
Local Abbreviation raw_ids := (fmap (M := list) (Message.id ∘ MkMessage)).

(** The dictionary stands for the ids of the records gone through. *)
Lemma unique_loop_first_occurrences msgs seen mbox :
  (∀ i, is_Some (msgs !! i) ↔ i ∈ raw_ids seen) →
  unique_loop msgs mbox = first_occurrences seen mbox.
Proof.
  revert msgs seen. induction mbox as [|raw rest IH]; intros msgs seen Hdom; [done|].
  simpl. destruct (msgs !! Message.id (MkMessage raw)) as [m|] eqn:Hl.
  - rewrite bool_decide_eq_true_2 by (apply Hdom; eauto).
    apply IH. intros i. rewrite fmap_app, elem_of_app, <-Hdom. simpl.
    rewrite list_elem_of_singleton. split; [auto|]. intros [?| ->]; eauto.
  - rewrite bool_decide_eq_false_2
      by (rewrite <-Hdom, Hl; by intros [??]).
    f_equal. apply IH. intros i. rewrite fmap_app, elem_of_app, <-Hdom. simpl.
    rewrite list_elem_of_singleton.
    destruct (decide (Message.id (MkMessage raw) = i)) as [<-|Hne].
    + rewrite lookup_insert_eq. split; [by right|eauto].
    + rewrite lookup_insert_ne by done. split; [by left|]. by intros [?|?].
Qed.

Lemma unique_messages_first_occurrences mbox :
  _unique_messages mbox = first_occurrences [] mbox.
Proof.
  apply unique_loop_first_occurrences. intros i.
  rewrite lookup_empty. split; [by intros [??]|]. by intros ?%elem_of_nil.
Qed.

Lemma first_occurrences_fresh seen mbox m :
  m ∈ first_occurrences seen mbox → Message.id m ∉ raw_ids seen.
Proof.
  revert seen. induction mbox as [|raw rest IH]; intros seen; simpl.
  - by intros ?%elem_of_nil.
  - case_bool_decide as Hin.
    + intros Hm%IH. rewrite fmap_app, elem_of_app in Hm. tauto.
    + intros [->|Hm%IH]%elem_of_cons; [done|].
      rewrite fmap_app, elem_of_app in Hm. tauto.
Qed.

Lemma first_occurrences_NoDup seen mbox :
  NoDup (ids (first_occurrences seen mbox)).
Proof.
  revert seen. induction mbox as [|raw rest IH]; intros seen; simpl.
  - constructor.
  - case_bool_decide as Hin; [apply IH|].
    rewrite fmap_cons. constructor; [|apply IH].
    intros (m & Hid & Hm%first_occurrences_fresh)%list_elem_of_fmap.
    apply Hm. rewrite fmap_app, elem_of_app. right. simpl.
    rewrite list_elem_of_singleton. done.
Qed.

Lemma first_occurrences_sublist seen mbox :
  first_occurrences seen mbox `sublist_of` MkMessage <$> mbox.
Proof.
  revert seen. induction mbox as [|raw rest IH]; intros seen; simpl; [done|].
  case_bool_decide; [by apply sublist_cons|by apply sublist_skip].
Qed.



(** A batch whose ids are distinct and new is emitted whole. *)
Lemma first_occurrences_distinct seen mbox :
  NoDup (raw_ids mbox) →
  (∀ i, i ∈ raw_ids mbox → i ∉ raw_ids seen) →
  first_occurrences seen mbox = MkMessage <$> mbox.
Proof.
  revert seen. induction mbox as [|raw rest IH]; intros seen Hnd Hnew; [done|].
  simpl. rewrite fmap_cons in Hnd. apply NoDup_cons in Hnd as [Hraw Hnd].
  rewrite bool_decide_eq_false_2
    by (apply Hnew; rewrite fmap_cons; apply elem_of_cons; by left).
  f_equal. apply IH; [done|]. intros i Hi.
  rewrite fmap_app, elem_of_app. simpl. rewrite list_elem_of_singleton.
  intros [Hs| ->]; [|done].
  apply (Hnew i); [|done]. rewrite fmap_cons. apply elem_of_cons. by right.
Qed.


Lemma fmap_msg_MkMessage (l : list Message) : MkMessage <$> (msg <$> l) = l.
Proof.
  rewrite <-list_fmap_compose. rewrite <-(list_fmap_id l) at 2.
  apply list_fmap_ext. by intros _ [] _.
Qed.

Lemma raw_ids_msg (l : list Message) : raw_ids (msg <$> l) = ids l.
Proof.
  rewrite <-list_fmap_compose. apply list_fmap_ext. by intros _ [] _.
Qed.





(** C6. Deduplicating the records of the messages that [_unique_messages]
    emitted emits the same messages again. *)
Theorem unique_messages_idempotent (mbox : list mboxMessage) :
  _unique_messages (msg <$> _unique_messages mbox) = _unique_messages mbox.
Proof.
  rewrite (unique_messages_first_occurrences (msg <$> _)).
  rewrite first_occurrences_distinct.
  - apply fmap_msg_MkMessage.
  - rewrite raw_ids_msg, unique_messages_first_occurrences.
    apply first_occurrences_NoDup.
  - intros i _. apply not_elem_of_nil.
Qed.

End Dedup.

(** * The thread resolver *)

Section Resolver.
Context `{Externals}.
Import PublicInbox.

Local Abbreviation ids := (fmap (M := list) Message.id).

Lemma first_parentless_root mbox root :
  first_parentless mbox = Some root → Message.is_thread_root root = true.
Proof.
  unfold first_parentless. intros [_ Hroot]%List.find_some. exact Hroot.
Qed.

Lemma first_parentless_none mbox :
  first_parentless mbox = None ↔
  Forall (λ raw, Message.parent_id (MkMessage raw) ≠ None) mbox.
Proof.
  unfold first_parentless. induction mbox as [|raw rest IH]; simpl.
  - split; [constructor|done].
  - case_bool_decide as Hp.
    + split; [done|]. by intros [? _]%Forall_cons.
    + rewrite IH. split; [by constructor|]. by intros [_ ?]%Forall_cons.
Qed.

Lemma get_thread_root_is_root self m w root w' :
  __get_thread_root self m w = (Ok (Some root), w') →
  Message.is_thread_root root = true.
Proof.
  unfold __get_thread_root. destruct (__get_url _ _); [|done].
  destruct (requests_get _ _) as [[content|] ?]; [|done].
  destruct (__get_mbox_from_content content) as [mbox|] eqn:Hm;
    simpl; [|done].
  intros [= Hroot _]. by eapply first_parentless_root.
Qed.

(** The ids in [found] and the ids of the messages yielded from here on are
    pairwise different. *)
Lemma threads_loop_NoDup self candidates found w :
  NoDup found →
  NoDup (found ++ ids (yielded (threads_loop self candidates found w).1)).
Proof.
  revert found w. induction candidates as [|m rest IH]; intros found w Hnd; simpl.
  - by rewrite List.app_nil_r.
  - case_bool_decide as Hin; [by apply IH|].
    destruct (Message.is_thread_root m); simpl.
    + specialize (IH (found ++ [Message.id m]) w).
      destruct (threads_loop self rest (found ++ [Message.id m]) w) as [g w'].
      simpl in *. rewrite <-List.app_assoc in IH. apply IH.
      apply NoDup_app. split_and!; [done| |apply NoDup_singleton].
      intros i Hi ->%list_elem_of_singleton. done.
    + destruct (__get_thread_root self m w) as [[[root|]|e] w'];
        simpl; rewrite ?List.app_nil_r; try done.
      case_bool_decide as Hroot; [by apply IH|].
      specialize (IH (found ++ [Message.id root]) w').
      destruct (threads_loop self rest (found ++ [Message.id root]) w') as [g w''].
      simpl in *. rewrite <-List.app_assoc in IH. apply IH.
      apply NoDup_app. split_and!; [done| |apply NoDup_singleton].
      intros i Hi ->%list_elem_of_singleton. done.
Qed.

Lemma threads_loop_roots self candidates found w :
  Forall (λ m, Message.is_thread_root m = true)
    (yielded (threads_loop self candidates found w).1).
Proof.
  revert found w. induction candidates as [|m rest IH]; intros found w; simpl.
  - constructor.
  - case_bool_decide as Hin; [by apply IH|].
    destruct (Message.is_thread_root m) eqn:Hm; simpl.
    + specialize (IH (found ++ [Message.id m]) w).
      destruct (threads_loop self rest (found ++ [Message.id m]) w) as [g w'].
      by constructor.
    + destruct (__get_thread_root self m w) as [[[root|]|e] w'] eqn:Hroot;
        simpl; try by constructor.
      apply get_thread_root_is_root in Hroot.
      case_bool_decide; [by apply IH|].
      specialize (IH (found ++ [Message.id root]) w').
      destruct (threads_loop self rest (found ++ [Message.id root]) w') as [g w''].
      by constructor.
Qed.

(** Either the search failed and nothing is yielded, or the generator is
    the loop over the candidates, started with [found] empty. *)
Lemma get_all_threads_cases self since until w :
  yielded (get_all_threads self since until w).1 = []
  ∨ ∃ candidates w',
      get_all_threads self since until w = threads_loop self candidates [] w'.
Proof.
  unfold get_all_threads. destruct (__get_url self "/all/"); [|by left].
  destruct (requests_post _ _ _ _) as [[content|] w']; [|by left].
  destruct (__get_mbox_from_content content); [|by left].
  right. eauto.
Qed.

(** C1. In every run of [get_all_threads], whatever the archive answers,
    the messages yielded have pairwise different ids: a thread root is
    yielded at most once. *)
Theorem get_all_threads_no_duplicate_ids self since until w :
  NoDup (ids (yielded (get_all_threads self since until w).1)).
Proof.
  destruct (get_all_threads_cases self since until w) as [->|(c & w' & ->)].
  - constructor.
  - apply (threads_loop_NoDup self c [] w'). constructor.
Qed.

(** C2. Every message yielded by [get_all_threads] is a thread root: its
    [is_thread_root()] is true, that is, it has no parent id. *)
Theorem get_all_threads_yields_roots self since until w :
  Forall (λ m, Message.is_thread_root m = true ∧ Message.parent_id m = None)
    (yielded (get_all_threads self since until w).1).
Proof.
  assert (Forall (λ m, Message.is_thread_root m = true)
            (yielded (get_all_threads self since until w).1)) as Hroots.
  { destruct (get_all_threads_cases self since until w) as [->|(c & w' & ->)].
    - constructor.
    - apply threads_loop_roots. }
  eapply Forall_impl; [exact Hroots|]. intros m Hm. split; [done|].
  by apply bool_decide_eq_true in Hm.
Qed.

(** C7, as the code has it. When the thread export fetched for a candidate
    that is not a root holds no record without a parent id, the root lookup
    raises nothing and returns [None]; [get_all_threads] then fails on that
    candidate: it asks the missing root for its id, which raises
    [AttributeError] and ends the generator. Nothing is yielded for the
    candidate, nor for any candidate after it. *)
Theorem rootless_thread_export self m rest found w url content w' mbox :
  Message.id m ∉ found →
  Message.is_thread_root m = false →
  __get_url self ("/all/" +:+ PyStr.format_s (Message.id m) +:+ "/t.mbox.gz")
    = Ok url →
  requests_get url w = (Ok content, w') →
  __get_mbox_from_content content = Ok mbox →
  Forall (λ raw, Message.parent_id (MkMessage raw) ≠ None) mbox →
  __get_thread_root self m w = (Ok None, w')
  ∧ threads_loop self (m :: rest) found w = (gen_raise AttributeError, w').
Proof.
  intros Hfound Hroot Hurl Hget Hmbox Hnone%first_parentless_none.
  assert (__get_thread_root self m w = (Ok None, w')) as Hres.
  { unfold __get_thread_root. rewrite Hurl, Hget, Hmbox. simpl. by rewrite Hnone. }
  split; [done|]. simpl.
  rewrite bool_decide_eq_false_2 by done. by rewrite Hroot, Hres.
Qed.

End Resolver.

(** Two replies of one thread resolve to its root once; a candidate that
    is a root is yielded as it is (the archive without m7). *)
Example resolution_of_sound_archive :
  yielded
    (@PublicInbox.get_all_threads (mem_externals lore_sound) lore_inbox
       (day 10) (day 12) tt).1
  = [MkMessage m0; MkMessage m5; MkMessage m8].
Proof. reflexivity. Qed.

(** The reply m7, whose thread export holds only m7 itself, met after the
    roots m0 and m5 were yielded and before the root m8. *)
Lemma rootless_thread_export_witness :
  @PublicInbox.__get_thread_root (mem_externals lore) lore_inbox (MkMessage m7) tt
  = (Ok None, tt)
  ∧ @PublicInbox.threads_loop (mem_externals lore) lore_inbox
      [MkMessage m7; MkMessage m8] [Some "m0"; Some "m5"] tt
    = (gen_raise AttributeError, tt).
Proof.
  apply (@rootless_thread_export (mem_externals lore) lore_inbox (MkMessage m7)
           [MkMessage m8] [Some "m0"; Some "m5"] tt
           "https://lore.kernel.org/all/m7/t.mbox.gz" (Some [m7]) tt [m7]).
  - apply (proj1 (bool_decide_eq_false _)). reflexivity.
  - reflexivity.
  - reflexivity.
  - reflexivity.
  - reflexivity.
  - constructor; [by vm_compute|constructor].
Defined.

(** C7 fails as stated: the search finds m3a, m3b, m5, m7 and m8; the
    export of the thread of m7 holds no root. The run does not pass over m7
    in silence: it yields m0 and m5 and then ends with [AttributeError];
    m8, a root that comes after m7, is not yielded, although it is when m7
    is not among the hits. *)
Lemma rootless_thread_export_raises :
  let run a :=
    (@PublicInbox.get_all_threads (mem_externals a) lore_inbox (day 10) (day 12)
       tt).1 in
  PublicInbox.first_parentless [m7] = None
  ∧ yielded (run lore) = [MkMessage m0; MkMessage m5]
  ∧ raised (run lore) = Some AttributeError
  ∧ yielded (run lore_sound) = [MkMessage m0; MkMessage m5; MkMessage m8]
  ∧ raised (run lore_sound) = None.
Proof. by vm_compute. Qed.

(** * The two statistics *)

Section Classifier.
Context `{Externals}.

(** The condition of [InvolvedThreads] is the negation of the condition of
    [NewThreads], exceptions included. *)
Lemma involved_cond_complement self m :
  involved_cond self m = negb <$> started_cond self m.
Proof.
  unfold involved_cond, started_cond.
  destruct (Message.is_from_user m _) as [[]|e]; simpl; [|done..].
  by destruct (Message.is_between_dates m _ _).
Qed.

Lemma started_cond_true self m :
  started_cond self m = Ok true ↔
  Message.is_from_user m (Base.email (stats_user self)) = Ok true
  ∧ Message.is_between_dates m (since self) (until self) = Ok true.
Proof.
  unfold started_cond.
  destruct (Message.is_from_user m _) as [[]|e]; simpl; split;
    try done; by intros [??].
Qed.

Lemma comprehension_outcome {A} (c : A → PyResult bool) items stop :
  match comprehension c items stop,
        comprehension (λ a, negb <$> c a) items stop with
  | Ok _, Ok _ => True
  | Raise e, Raise e' => e = e'
  | _, _ => False
  end.
Proof.
  induction items as [|a items IH]; simpl; [by destruct stop|].
  destruct (c a) as [b|e']; simpl; [|done].
  by destruct (comprehension c items stop) as [l|e1],
              (comprehension (λ a, negb <$> c a) items stop) as [l'|e2].
Qed.

Lemma comprehension_raise {A} (c : A → PyResult bool) items stop e :
  comprehension c items stop = Raise e ↔
  comprehension (λ a, negb <$> c a) items stop = Raise e.
Proof.
  pose proof (comprehension_outcome c items stop) as Ho.
  destruct (comprehension c items stop) as [l|e1],
           (comprehension (λ a, negb <$> c a) items stop) as [l'|e2];
    try done.
  by subst.
Qed.

Lemma filter_ext_in {A} (P Q : A → Prop) `{!∀ a, Decision (P a)}
    `{!∀ a, Decision (Q a)} (l : list A) :
  (∀ a, a ∈ l → P a ↔ Q a) → filter P l = filter Q l.
Proof.
  induction l as [|a l IH]; intros HPQ; [done|].
  rewrite !filter_cons, IH
    by (intros b Hb; apply HPQ, elem_of_cons; by right).
  assert (P a ↔ Q a) as Ha by (apply HPQ, elem_of_cons; by left).
  destruct (decide (P a)), (decide (Q a)); tauto.
Qed.

Lemma comprehension_ext {A} (c c' : A → PyResult bool) items stop :
  (∀ a, c a = c' a) →
  comprehension c items stop = comprehension c' items stop.
Proof.
  intros Hc. induction items as [|a items IH]; simpl; [done|].
  by rewrite Hc, IH.
Qed.

(** A comprehension that returns evaluated its condition on every item
    without an exception and kept the items on which it was true. *)
Lemma comprehension_ok {A} (c : A → PyResult bool) items stop kept :
  comprehension c items stop = Ok kept →
  stop = None
  ∧ Forall (λ a, ∃ b, c a = Ok b) items
  ∧ kept = filter (λ a, c a = Ok true) items.
Proof.
  revert kept. induction items as [|a items IH]; simpl; intros kept.
  - destruct stop; [done|]. intros [= <-]. by split_and!.
  - destruct (c a) as [b|e] eqn:Hc; simpl; [|done].
    destruct (comprehension c items stop) as [l|e1]; simpl; [|done].
    intros [= <-]. destruct (IH l eq_refl) as (-> & Hall & ->).
    split_and!; [done|constructor; eauto|].
    rewrite filter_cons. rewrite Hc. destruct b.
    + by rewrite decide_True.
    + by rewrite decide_False.
Qed.

(** C3. Over one resolved sequence, the threads kept by [NewThreads] are
    exactly those on which [is_from_user] and [is_between_dates] both
    hold, the threads kept by [InvolvedThreads] are exactly the others,
    and every resolved thread is in exactly one of the two lists. Either
    both statistics return or both raise the same exception. *)
Theorem classifier_partition self w1 w2 :
  let run w :=
    (PublicInbox.get_all_threads (pi self) (since self) (until self) w).1 in
  run w1 = run w2 →
  (∀ e, NewThreads_fetch self w1 = Raise e ↔
        InvolvedThreads_fetch self w2 = Raise e)
  ∧ ∀ started involved,
      NewThreads_fetch self w1 = Ok started →
      InvolvedThreads_fetch self w2 = Ok involved →
      started = filter (λ m, started_cond self m = Ok true) (yielded (run w1))
      ∧ involved = filter (λ m, started_cond self m ≠ Ok true) (yielded (run w1))
      ∧ started ++ involved ≡ₚ yielded (run w1)
      ∧ ∀ m, m ∈ yielded (run w1) →
          (m ∈ started ↔
             Message.is_from_user m (Base.email (stats_user self)) = Ok true
             ∧ Message.is_between_dates m (since self) (until self) = Ok true)
          ∧ (m ∈ involved ↔ m ∉ started).
Proof.
  intros run Hrun. unfold NewThreads_fetch, InvolvedThreads_fetch.
  fold (run w1) (run w2). rewrite <-Hrun.
  rewrite (comprehension_ext (involved_cond self)
             (λ m, negb <$> started_cond self m))
    by apply involved_cond_complement.
  split; [intros e; apply comprehension_raise|].
  intros started involved Hs Hi.
  apply comprehension_ok in Hs as (_ & Hall & ->).
  apply comprehension_ok in Hi as (_ & _ & ->).
  assert (filter (λ m, negb <$> started_cond self m = Ok true) (yielded (run w1))
          = filter (λ m, started_cond self m ≠ Ok true) (yielded (run w1)))
    as Hcompl.
  { apply filter_ext_in. intros m Hm. rewrite Forall_forall in Hall.
    destruct (Hall m Hm) as [[] ->]; simpl; split; done. }
  split_and!; [done|done| |].
  - rewrite Hcompl. apply filter_app_complement.
  - intros m Hm. rewrite <-started_cond_true, Hcompl, !list_elem_of_filter.
    unfold not. tauto.
Qed.

End Classifier.

(** The threads m0, m5 and m8 of the archive, for alice and the window
    from 10 to 12 March: m0 is hers and inside the window; m5 is not
    hers; m8 is hers but of 9 March. *)
Lemma classifier_partition_witness :
  @NewThreads_fetch (mem_externals lore_sound) report tt = Ok [MkMessage m0]
  ∧ @InvolvedThreads_fetch (mem_externals lore_sound) report tt
    = Ok [MkMessage m5; MkMessage m8]
  ∧ [MkMessage m0] ++ [MkMessage m5; MkMessage m8]
    ≡ₚ [MkMessage m0; MkMessage m5; MkMessage m8].
Proof.
  pose proof (@classifier_partition (mem_externals lore_sound) report tt tt
                eq_refl) as [_ Hpart].
  assert (@NewThreads_fetch (mem_externals lore_sound) report tt
          = Ok [MkMessage m0]) as Hs by (vm_compute; reflexivity).
  assert (@InvolvedThreads_fetch (mem_externals lore_sound) report tt
          = Ok [MkMessage m5; MkMessage m8]) as Hi by (vm_compute; reflexivity).
  destruct (Hpart _ _ Hs Hi) as (_ & _ & Hperm & _).
  split; [exact Hs|]. split; [exact Hi|]. exact Hperm.
Defined.

(** * The date window *)

Section Window.
Context `{Externals}.

Lemma cmp_Lt a b : datetime.cmp a b = Lt ↔ date_before a b.
Proof.
  unfold datetime.cmp, date_before.
  destruct (Nat.compare_spec (datetime.year a) (datetime.year b));
    destruct (Nat.compare_spec (datetime.month a) (datetime.month b));
    destruct (Nat.compare_spec (datetime.day a) (datetime.day b));
    split; try done; try lia; auto with lia.
Qed.

Lemma cmp_Gt a b : datetime.cmp a b = Gt ↔ date_before b a.
Proof.
  unfold datetime.cmp, date_before.
  destruct (Nat.compare_spec (datetime.year a) (datetime.year b));
    destruct (Nat.compare_spec (datetime.month a) (datetime.month b));
    destruct (Nat.compare_spec (datetime.day a) (datetime.day b));
    split; try done; try lia; auto with lia.
Qed.

Lemma ge_spec a b : datetime.ge a b = true ↔ ¬ date_before a b.
Proof.
  unfold datetime.ge. rewrite <-cmp_Lt. by destruct (datetime.cmp a b).
Qed.

Lemma le_spec a b : datetime.le a b = true ↔ ¬ date_before b a.
Proof.
  unfold datetime.le. rewrite <-cmp_Gt. by destruct (datetime.cmp a b).
Qed.

Lemma date_before_irrefl a : ¬ date_before a a.
Proof. unfold date_before. lia. Qed.

(** C8. For a message whose [Date] parses, with date component [d]:
    [is_between_dates] is true exactly when [d] is neither before
    [since] nor after [until]; it is true when [d] is [since] or [until]
    (the window not being empty), false when [d] is before [since] or
    after [until], and it is the same for any message with the same date
    component, whatever the time of day. *)
Theorem is_between_dates_inclusive (m : Message) (since until : Base.Date)
    (dt : datetime.datetime) :
  Message.date m = Ok dt →
  let d := datetime.dt_date dt in
  (∃ inside, Message.is_between_dates m since until = Ok inside
     ∧ (inside = true ↔
          ¬ date_before d (Base.date since) ∧ ¬ date_before (Base.date until) d))
  ∧ (¬ date_before (Base.date until) (Base.date since) →
     d = Base.date since ∨ d = Base.date until →
     Message.is_between_dates m since until = Ok true)
  ∧ (date_before d (Base.date since) ∨ date_before (Base.date until) d →
     Message.is_between_dates m since until = Ok false)
  ∧ (∀ m' dt', Message.date m' = Ok dt' → datetime.dt_date dt' = d →
       Message.is_between_dates m' since until
       = Message.is_between_dates m since until).
Proof.
  intros Hdate d. unfold Message.is_between_dates. rewrite Hdate. simpl.
  fold d.
  assert (datetime.ge d (Base.date since) && datetime.le d (Base.date until) = true
          ↔ ¬ date_before d (Base.date since) ∧ ¬ date_before (Base.date until) d)
    as Hiff by (by rewrite andb_true_iff, ge_spec, le_spec).
  split_and!.
  - eauto.
  - intros Hwin [Hd|Hd]; f_equal; apply Hiff; rewrite Hd;
      split; auto using date_before_irrefl.
  - intros Hout. f_equal. apply not_true_is_false. rewrite Hiff. tauto.
  - intros m' dt' Hdate' Hd. rewrite Hdate'. simpl. by rewrite Hd.
Qed.

End Window.

(** The window from 10 to 12 March: m0, of 10 March at 0 h, and m3b, of
    12 March at 23 h, are inside; m8, of 9 March at 23 h, and m9, of
    13 March at 0 h, are outside. *)
Lemma is_between_dates_inclusive_witness :
  @Message.is_between_dates (mem_externals lore) (MkMessage m0) (day 10) (day 12)
  = Ok true
  ∧ @Message.is_between_dates (mem_externals lore) (MkMessage m3b) (day 10) (day 12)
    = Ok true
  ∧ @Message.is_between_dates (mem_externals lore) (MkMessage m8) (day 10) (day 12)
    = Ok false
  ∧ @Message.is_between_dates (mem_externals lore) (MkMessage m9) (day 10) (day 12)
    = Ok false.
Proof.
  assert (¬ date_before (Base.date (day 12)) (Base.date (day 10))) as Hwin
    by (unfold date_before; simpl; lia).
  split_and!.
  - apply (proj1 (proj2 (@is_between_dates_inclusive (mem_externals lore)
             (MkMessage m0) (day 10) (day 12) (march 10 0) eq_refl)));
      [exact Hwin|by left].
  - apply (proj1 (proj2 (@is_between_dates_inclusive (mem_externals lore)
             (MkMessage m3b) (day 10) (day 12) (march 12 23) eq_refl)));
      [exact Hwin|by right].
  - apply (proj1 (proj2 (proj2 (@is_between_dates_inclusive (mem_externals lore)
             (MkMessage m8) (day 10) (day 12) (march 9 23) eq_refl)))).
    left. unfold date_before. simpl. lia.
  - apply (proj1 (proj2 (proj2 (@is_between_dates_inclusive (mem_externals lore)
             (MkMessage m9) (day 10) (day 12) (march 13 0) eq_refl)))).
    right. unfold date_before. simpl. lia.
Defined.

(** * The permalink of a message *)

Section Permalink.
Context `{Externals}.
Import PublicInbox.


End Permalink.



(** * The subject of a message *)

Section Subject.
Import PyStr PyStrFacts.


End Subject.


(** * Further properties of the module *)

(** ** The fields of a message *)

Section MessageFields.
Import PyStr PyStrFacts.

(** [lstrip] removes a run of stripped characters from the left end, and
    what is left does not start with one. *)
Lemma lstrip_spec p s :
  ∃ a, s = a +:+ lstrip p s ∧ forallb p a = true
       ∧ ∀ c r, lstrip p s = String c r → p c = false.
Proof.
  induction s as [|c s (a & Hs & Ha & Hhead)].
  - exists "". by split_and!.
  - simpl. destruct (p c) eqn:Hc.
    + exists (String c a). split_and!; [by rewrite str_app_cons, <-Hs| |done].
      simpl. by rewrite Hc, Ha.
    + exists "". split_and!; [done..|]. by intros ?? [= -> _].
Qed.

Lemma rstrip_spec p s :
  ∃ b, s = rstrip p s +:+ b ∧ forallb p b = true
       ∧ ∀ r c, rstrip p s = r +:+ String c "" → p c = false.
Proof.
  induction s as [|c s (b & Hs & Hb & Hlast)].
  - exists "". split_and!; [done..|]. by intros [|??] ?.
  - simpl. destruct (rstrip p s) as [|d r] eqn:Hr; simpl.
    + destruct (p c) eqn:Hc.
      * exists (String c b). split_and!; [by rewrite Hs| |by intros [|??] ?].
        simpl. by rewrite Hc, Hb.
      * exists b. split_and!; [by rewrite Hs|done|].
        intros [|x r] c'; [by intros [= <-]|]. by intros [= _ ?%eq_sym]; destruct r.
    + exists b. split_and!; [by rewrite str_app_cons, <-Hs|done|].
      intros [|x r'] c'; [done|]. rewrite str_app_cons. intros [= _ Heq].
      by eapply Hlast.
Qed.

Lemma rstrip_head p s c r :
  rstrip p s = String c r → ∃ r', s = String c r'.
Proof.
  destruct s as [|d s]; [done|]. simpl.
  destruct (is_empty (rstrip p s) && p d); [done|]. intros [= -> _]. eauto.
Qed.

(** X1. [__msg_id] returns [None] for a field that is absent. For a field
    of value [v] it removes every [<] at the left end and every [>] at
    the right end and nothing else: [v] is the result between a run of
    [<] and a run of [>], and the result neither starts with [<] nor
    ends with [>]. *)
Theorem msg_id_brackets (m : Message) (keyid : string) :
  match getitem (msg m) keyid with
  | None => Message.__msg_id m keyid = None
  | Some v =>
      ∃ a i b,
        Message.__msg_id m keyid = Some i
        ∧ v = a +:+ i +:+ b
        ∧ forallb (is_char "<") a = true
        ∧ forallb (is_char ">") b = true
        ∧ (∀ r, i ≠ String "<" r)
        ∧ (∀ r, i ≠ r +:+ ">")
  end.
Proof.
  unfold Message.__msg_id. destruct (getitem (msg m) keyid) as [v|]; [|done].
  destruct (lstrip_spec (is_char "<") v) as (a & Hv & Ha & Hhead).
  destruct (rstrip_spec (is_char ">") (lstrip (is_char "<") v))
    as (b & Hs & Hb & Hlast).
  exists a, (rstrip (is_char ">") (lstrip (is_char "<") v)), b.
  split_and!; [done| |done|done| |].
  - by rewrite <-Hs.
  - intros r Hr. destruct (rstrip_head _ _ _ _ Hr) as [r' Hr'].
    by specialize (Hhead _ _ Hr').
  - intros r Hr. by specialize (Hlast _ _ Hr).
Qed.

Lemma rstrip_all p b : forallb p b = true → rstrip p b = "".
Proof.
  induction b as [|c b IH]; [done|]. simpl. intros [Hc Hb]%andb_true_iff.
  by rewrite (IH Hb), Hc.
Qed.

Lemma rstrip_app p x b :
  forallb p b = true → rstrip p (x +:+ b) = rstrip p x.
Proof.
  intros Hb. induction x as [|c x IH]; [by apply rstrip_all|].
  rewrite str_app_cons. simpl. by rewrite IH.
Qed.

Lemma forallb_last c b :
  forallb (is_char c) b = true → b ≠ "" → ∃ b', b = b' +:+ String c "".
Proof.
  induction b as [|d b IH]; [done|]. simpl. intros [Hd Hb]%andb_true_iff _.
  unfold is_char in Hd. apply bool_decide_eq_true in Hd as ->.
  destruct b as [|e b]; [by exists ""|].
  destruct (IH Hb) as [b' Hb']; [done|]. exists (String c b'). by rewrite Hb'.
Qed.

(** X2. The id of a message whose [Message-Id] field is [<x>] is [x],
    when [x] does not start with [<] and does not end with [>]. *)
Theorem msg_id_round_trip (m : Message) (x : string) :
  getitem (msg m) "Message-Id" = Some ("<" +:+ x +:+ ">") →
  (∀ r, x ≠ String "<" r) →
  (∀ r, x ≠ r +:+ ">") →
  Message.id m = Some x.
Proof.
  intros Hget Hhead Hlast. unfold Message.id, Message.__msg_id. rewrite Hget.
  f_equal. change ("<" +:+ x +:+ ">") with (String "<" (x +:+ ">")).
  assert (lstrip (is_char "<") (String "<" (x +:+ ">")) = x +:+ ">") as ->.
  { change (lstrip (is_char "<") (String "<" (x +:+ ">")))
      with (lstrip (is_char "<") (x +:+ ">")).
    destruct x as [|c x]; [done|]. rewrite str_app_cons. simpl.
    destruct (is_char "<" c) eqn:Hc; [|done].
    unfold is_char in Hc. apply bool_decide_eq_true in Hc as ->.
    by destruct (Hhead x). }
  rewrite rstrip_app by done.
  destruct (rstrip_spec (is_char ">") x) as (b & Hx & Hb & _).
  destruct (decide (b = "")) as [->|Hne].
  - rewrite str_app_nil_r in Hx. by rewrite <-Hx.
  - destruct (forallb_last _ _ Hb Hne) as [b' ->].
    rewrite <-str_app_assoc in Hx. by destruct (Hlast _ Hx).
Qed.

Lemma msg_id_round_trip_witness : Message.id (MkMessage m0) = Some "m0".
Proof.
  apply (msg_id_round_trip (MkMessage m0) "m0").
  - reflexivity.
  - intros r. discriminate.
  - intros [|a [|b [|c r]]]; discriminate.
Defined.


Lemma getitem_None (raw : mboxMessage) (name : string) :
  getitem raw name = None ↔
  Forall (λ kv, lower kv.1 ≠ lower name) (_headers raw).
Proof.
  unfold getitem. destruct raw as [headers payload]. simpl.
  induction headers as [|kv headers IH]; simpl.
  - split; [constructor|done].
  - case_bool_decide as Hk.
    + split; [done|]. by intros [? _]%Forall_cons.
    + rewrite IH. split; [by constructor|]. by intros [_ ?]%Forall_cons.
Qed.

(** X3. A message is a thread root exactly when it has no field named
    [In-Reply-To], whatever the case of the letters of the name: a field
    with an empty value makes the message a reply. *)
Theorem is_thread_root_no_field (m : Message) :
  Message.is_thread_root m = true ↔
  Forall (λ kv, lower kv.1 ≠ "in-reply-to") (_headers (msg m)).
Proof.
  unfold Message.is_thread_root, Message.parent_id, Message.__msg_id.
  rewrite bool_decide_eq_true.
  rewrite <-(getitem_None (msg m) "In-Reply-To").
  by destruct (getitem (msg m) "In-Reply-To").
Qed.

(** *** Subject *)

Lemma subject_words (m : Message) h :
  getitem (msg m) "Subject" = Some h →
  Message.subject m = Ok (join " " (split h)).
Proof.
  intros Hget. unfold Message.subject. rewrite Hget.
  by rewrite split_join_splitlines.
Qed.

(** X4. A subject returned by [subject()] is in normal form: a message
    whose [Subject] field is that string has it as its subject. *)
Theorem subject_normal_form (m m' : Message) (s : string) :
  Message.subject m = Ok s →
  getitem (msg m') "Subject" = Some s →
  Message.subject m' = Ok s.
Proof.
  intros Hs Hget. rewrite (subject_words m' s Hget). f_equal.
  unfold Message.subject in Hs.
  destruct (getitem (msg m) "Subject") as [h|]; [|done].
  injection Hs as <-. rewrite split_join_splitlines.
  by rewrite split_join by apply split_words.
Qed.

Lemma subject_normal_form_witness :
  Message.subject (MkMessage folded) = Ok "[PATCH] fix it"
  ∧ Message.subject (MkMessage flat) = Ok "[PATCH] fix it".
Proof.
  assert (Message.subject (MkMessage folded) = Ok "[PATCH] fix it") as Hs
    by reflexivity.
  split; [exact Hs|].
  exact (subject_normal_form (MkMessage folded) (MkMessage flat)
           "[PATCH] fix it" Hs eq_refl).
Defined.


Lemma split_nil (h : string) : split h = [] ↔ forallb isspace h = true.
Proof.
  induction h as [|c h IH]; [done|]. simpl forallb.
  destruct (isspace c) eqn:Hc.
  - by rewrite split_space.
  - simpl. split; [|done]. intros Hnil. by destruct (split_nonempty c h Hc).
Qed.

Lemma join_words_nil (ws : list string) :
  Forall word ws → join " " ws = "" → ws = [].
Proof.
  destruct 1 as [|w ws [Hne _] _]; [done|].
  destruct ws as [|v ws]; [done|]. rewrite join_cons_cons.
  by destruct w.
Qed.

(** X5. For a message with a [Subject] field, [subject()] is the empty
    string exactly when the field holds white space only. *)
Theorem subject_empty (m : Message) (h : string) :
  getitem (msg m) "Subject" = Some h →
  (Message.subject m = Ok "" ↔ forallb isspace h = true).
Proof.
  intros Hget. rewrite (subject_words m h Hget), <-split_nil. split.
  - intros [= Hj]. apply join_words_nil; [apply split_words|done].
  - by intros ->.
Qed.

Lemma subject_empty_witness : Message.subject (MkMessage blank) = Ok "".
Proof.
  apply (proj2 (subject_empty (MkMessage blank) "   " eq_refl)). reflexivity.
Defined.


End MessageFields.

Section WindowExtras.
Context `{Externals}.

(** X6. When [until] is before [since], no message whose [Date] parses is
    inside the window. *)
Theorem is_between_dates_empty_window (m : Message) (since until : Base.Date)
    (dt : datetime.datetime) :
  Message.date m = Ok dt →
  date_before (Base.date until) (Base.date since) →
  Message.is_between_dates m since until = Ok false.
Proof.
  intros Hdate Hempty. unfold Message.is_between_dates. rewrite Hdate. simpl.
  f_equal. apply not_true_is_false.
  rewrite andb_true_iff, ge_spec, le_spec.
  unfold date_before in *. lia.
Qed.


(** X7. A message inside a window is inside every window that starts no
    later and ends no earlier. *)
Theorem is_between_dates_widen (m : Message) (since until since' until' : Base.Date) :
  ¬ date_before (Base.date since) (Base.date since') →
  ¬ date_before (Base.date until') (Base.date until) →
  Message.is_between_dates m since until = Ok true →
  Message.is_between_dates m since' until' = Ok true.
Proof.
  intros Hs Hu. unfold Message.is_between_dates.
  destruct (Message.date m) as [dt|e]; simpl; [|done].
  intros [= Hin]. f_equal. revert Hin.
  rewrite !andb_true_iff, !ge_spec, !le_spec.
  unfold date_before in *. lia.
Qed.

End WindowExtras.

Lemma is_between_dates_empty_window_witness :
  @Message.is_between_dates (mem_externals lore) (MkMessage m3a) (day 12) (day 10)
  = Ok false.
Proof.
  apply (@is_between_dates_empty_window (mem_externals lore) (MkMessage m3a)
           (day 12) (day 10) (march 11 12) eq_refl).
  unfold date_before. simpl. lia.
Defined.

Lemma is_between_dates_widen_witness :
  @Message.is_between_dates (mem_externals lore) (MkMessage m0) (day 9) (day 13)
  = Ok true.
Proof.
  apply (@is_between_dates_widen (mem_externals lore) (MkMessage m0)
           (day 10) (day 12) (day 9) (day 13)).
  - unfold date_before. simpl. lia.
  - unfold date_before. simpl. lia.
  - reflexivity.
Defined.

(** ** The deduplicator and the resolver *)

Section DedupExtras.

Local Abbreviation ids := (fmap (M := list) Message.id).
Local Abbreviation raw_ids := (fmap (M := list) (Message.id ∘ MkMessage)).





End DedupExtras.

Section ResolverExtras.
Context `{Externals}.
Import PublicInbox.

Local Abbreviation ids := (fmap (M := list) Message.id).

Lemma get_all_threads_search self since until w :
  get_all_threads self since until w
  = match search self since until w with
    | (Raise e, w') => (gen_raise e, w')
    | (Ok mbox, w') => threads_loop self (_unique_messages mbox) [] w'
    end.
Proof.
  unfold get_all_threads, search. destruct (__get_url self "/all/"); [|done].
  destruct (requests_post _ _ _ _) as [[content|] w']; [|done].
  by destruct (__get_mbox_from_content content).
Qed.



Lemma resolved_from_cons self m candidates r :
  resolved_from self candidates r → resolved_from self (m :: candidates) r.
Proof.
  intros [Hin|(m' & w0 & w1 & Hin & Hm' & Hget)].
  - left. apply elem_of_cons. by right.
  - right. exists m', w0, w1. split_and!; [|done..]. apply elem_of_cons. by right.
Qed.

Lemma threads_loop_provenance self candidates found w :
  Forall (resolved_from self candidates)
    (yielded (threads_loop self candidates found w).1).
Proof.
  revert found w. induction candidates as [|m rest IH]; intros found w.
  - constructor.
  - assert (∀ found w, Forall (resolved_from self (m :: rest))
              (yielded (threads_loop self rest found w).1)) as IH'.
    { intros f' w'. eapply Forall_impl; [apply IH|].
      intros r. apply resolved_from_cons. }
    cbn [threads_loop]. case_bool_decide as Hin; [apply IH'|].
    destruct (Message.is_thread_root m) eqn:Hm; cbn [negb].
    + specialize (IH' (found ++ [Message.id m]) w).
      destruct (threads_loop self rest (found ++ [Message.id m]) w) as [g w'].
      constructor; [|done]. left. apply elem_of_cons. by left.
    + destruct (__get_thread_root self m w) as [[[root|]|e] w'] eqn:Hroot;
        try by constructor.
      case_bool_decide; [apply IH'|].
      specialize (IH' (found ++ [Message.id root]) w').
      destruct (threads_loop self rest (found ++ [Message.id root]) w') as [g w''].
      constructor; [|done]. right. exists m, w, w'.
      split_and!; [|done..]. apply elem_of_cons. by left.
Qed.

(** X11. When the search fails, [get_all_threads] yields nothing and
    raises the exception of the search. Otherwise every message it yields
    is a candidate (a message of the deduplicated answer) or the root
    that a thread fetch returned for a candidate that is not a root. *)
Theorem get_all_threads_provenance self since until w :
  match (search self since until w).1 with
  | Raise e =>
      yielded (get_all_threads self since until w).1 = []
      ∧ raised (get_all_threads self since until w).1 = Some e
  | Ok mbox =>
      Forall (resolved_from self (_unique_messages mbox))
        (yielded (get_all_threads self since until w).1)
  end.
Proof.
  rewrite get_all_threads_search.
  destruct (search self since until w) as [[mbox|e] w']; [|done].
  apply threads_loop_provenance.
Qed.

Lemma threads_loop_keeps_found self candidates found w :
  raised (threads_loop self candidates found w).1 = None →
  ∀ m, m ∈ candidates → Message.is_thread_root m = true →
       Message.id m ∈ found ++ ids (yielded (threads_loop self candidates found w).1).
Proof.
  revert found w. induction candidates as [|m rest IH]; intros found w Hend m' Hin Hroot.
  - by apply elem_of_nil in Hin.
  - cbn [threads_loop] in *. case_bool_decide as Hfound.
    + apply elem_of_cons in Hin as [->|Hin]; [|by apply IH].
      apply elem_of_app. by left.
    + destruct (Message.is_thread_root m) eqn:Hm; cbn [negb] in *.
      * specialize (IH (found ++ [Message.id m]) w).
        destruct (threads_loop self rest (found ++ [Message.id m]) w) as [g w'].
        cbn in *. apply elem_of_cons in Hin as [->|Hin].
        -- apply elem_of_app. right. apply elem_of_cons. by left.
        -- specialize (IH Hend m' Hin Hroot).
           rewrite <-List.app_assoc in IH. exact IH.
      * apply elem_of_cons in Hin as [->|Hin]; [congruence|].
        destruct (__get_thread_root self m w) as [[[root|]|e] w']; try done.
        case_bool_decide; [by apply IH|].
        specialize (IH (found ++ [Message.id root]) w').
        destruct (threads_loop self rest (found ++ [Message.id root]) w') as [g w''].
        cbn in *. specialize (IH Hend m' Hin Hroot).
        rewrite <-List.app_assoc in IH. exact IH.
Qed.

(** X12. When [get_all_threads] ends without an exception, the id of every
    candidate that is a thread root is the id of a yielded message. *)
Theorem get_all_threads_keeps_roots self since until w mbox w' :
  search self since until w = (Ok mbox, w') →
  raised (get_all_threads self since until w).1 = None →
  Forall (λ m, Message.is_thread_root m = true →
               Message.id m ∈ ids (yielded (get_all_threads self since until w).1))
    (_unique_messages mbox).
Proof.
  rewrite get_all_threads_search. intros -> Hend.
  apply Forall_forall. intros m Hin Hroot.
  by apply (threads_loop_keeps_found self _ [] w' Hend m Hin Hroot).
Qed.

Lemma threads_loop_length self candidates found w :
  length (yielded (threads_loop self candidates found w).1) ≤ length candidates.
Proof.
  revert found w. induction candidates as [|m rest IH]; intros found w; [done|].
  cbn [threads_loop]. case_bool_decide; [by etrans; [apply IH|cbn; lia]|].
  destruct (Message.is_thread_root m); cbn [negb].
  - specialize (IH (found ++ [Message.id m]) w).
    destruct (threads_loop self rest (found ++ [Message.id m]) w) as [g w'].
    cbn in *. lia.
  - destruct (__get_thread_root self m w) as [[[root|]|e] w']; cbn; try lia.
    case_bool_decide; [by etrans; [apply IH|cbn; lia]|].
    specialize (IH (found ++ [Message.id root]) w').
    destruct (threads_loop self rest (found ++ [Message.id root]) w') as [g w''].
    cbn in *. lia.
Qed.

(** X13. [get_all_threads] yields at most one message per candidate,
    hence at most as many messages as the search returned records. *)
Theorem get_all_threads_length self since until w :
  match (search self since until w).1 with
  | Ok mbox =>
      length (yielded (get_all_threads self since until w).1)
      ≤ length (_unique_messages mbox)
      ∧ length (_unique_messages mbox) ≤ length mbox
  | Raise _ => yielded (get_all_threads self since until w).1 = []
  end.
Proof.
  rewrite get_all_threads_search.
  destruct (search self since until w) as [[mbox|e] w']; [|done].
  cbn [fst]. split; [apply threads_loop_length|].
  rewrite unique_messages_first_occurrences.
  pose proof (sublist_length _ _ (first_occurrences_sublist [] mbox)) as Hlen.
  by rewrite length_fmap in Hlen.
Qed.

End ResolverExtras.


(** The roots m5 and m8 among the candidates m3a, m3b, m5 and m8. *)
Lemma get_all_threads_keeps_roots_witness :
  Forall
    (λ m, Message.is_thread_root m = true →
          Message.id m ∈ [Some "m0"; Some "m5"; Some "m8"])
    [MkMessage m3a; MkMessage m3b; MkMessage m5; MkMessage m8].
Proof.
  exact (@get_all_threads_keeps_roots (mem_externals lore_sound) lore_inbox
           (day 10) (day 12) tt [m3a; m3b; m5; m8] tt eq_refl eq_refl).
Defined.

(** ** The URLs of the archive *)

Section UrlExtras.
Import PyStr PyStrFacts UrlParse.

Variable chk : string → bool.

Lemma split_char_nonempty sep s : split_char sep s ≠ [].
Proof.
  destruct s as [|c s]; [done|]. simpl.
  destruct (decide (c = sep)); [done|]. by destruct (split_char sep s).
Qed.

Lemma join_cons_char sep c w ws :
  join sep (String c w :: ws) = String c (join sep (w :: ws)).
Proof. by destruct ws. Qed.

(** Cutting a string at a character and joining the pieces with that
    character gives the string back. *)
Lemma join_split_char sep s : join (String sep "") (split_char sep s) = s.
Proof.
  induction s as [|c s IH]; [done|]. simpl.
  pose proof (split_char_nonempty sep s) as Hne.
  destruct (decide (c = sep)) as [->|_].
  - destruct (split_char sep s) as [|w ws]; [done|].
    rewrite join_cons_cons, IH. done.
  - destruct (split_char sep s) as [|w ws]; [done|].
    by rewrite join_cons_char, IH.
Qed.

Lemma resolve_segments_no_dots resolved segments :
  no_dots segments → resolve_segments resolved segments = resolved ++ segments.
Proof.
  intros Hsegs. revert resolved.
  induction Hsegs as [|seg segments [Hdot Hdots] _ IH]; intros resolved; simpl.
  - by rewrite List.app_nil_r.
  - rewrite !decide_False by done. by rewrite IH, <-List.app_assoc.
Qed.

Lemma break_app_hit (p : ascii → bool) (a : string) (c : ascii) (b : string) :
  existsb p a = false → p c = true →
  break p (a +:+ String c b) = (a, String c b).
Proof.
  induction a as [|x a IH]; simpl; intros Ha Hc.
  - by rewrite Hc.
  - apply orb_false_iff in Ha as [Hx Ha]. by rewrite Hx, (IH Ha Hc).
Qed.

(** A base URL made of a scheme, a host and a rooted path, if any, parses
    into that scheme and that host. *)
Lemma urlparse_rooted_base sch host bpath :
  sch = "http" ∨ sch = "https" →
  url_plain "/?#[]" host →
  url_plain "?#" bpath →
  bpath = "" ∨ (∃ r, bpath = String "/" r) →
  ∃ pth prm,
    urlparse chk (sch +:+ "://" +:+ host +:+ bpath) ""
    = Ok (MkParse sch host pth prm "" "").
Proof.
  intros Hsch Hhost Hbpath Hrooted.
  pose proof (url_plain_safe _ _ Hhost) as Hsafe.
  pose proof (url_plain_safe _ _ Hbpath) as Hsafe'.
  assert (existsb (λ c, mem c "/?#") host = false) as Hdelim.
  { revert Hhost. apply url_plain_mem. by intros [[][][][][][][][]]. }
  pose proof (url_plain_char "/?#[]" "[" host eq_refl Hhost) as Hopen.
  pose proof (url_plain_char "/?#[]" "]" host eq_refl Hhost) as Hclose.
  pose proof (url_plain_char "?#" "#" bpath eq_refl Hbpath) as Hfrag.
  pose proof (url_plain_char "?#" "?" bpath eq_refl Hbpath) as Hquery.
  unfold urlparse, urlsplit.
  assert (lstrip c0_control_or_space (sch +:+ "://" +:+ host +:+ bpath)
          = sch +:+ "://" +:+ host +:+ bpath) as ->
    by (by destruct Hsch as [-> | ->]).
  rewrite remove_none
    by (rewrite !existsb_app, Hsafe, Hsafe'; by destruct Hsch as [-> | ->]).
  assert (split_scheme (sch +:+ "://" +:+ host +:+ bpath)
          = Some (sch, "//" +:+ host +:+ bpath)) as ->
    by (by destruct Hsch as [-> | ->]).
  change (startswith "//" ("//" +:+ host +:+ bpath)) with true.
  unfold _splitnetloc. change (drop 2 ("//" +:+ host +:+ bpath)) with (host +:+ bpath).
  assert (break (λ c, mem c "/?#") (host +:+ bpath) = (host, bpath)) as ->.
  { destruct Hrooted as [->|[r ->]].
    - rewrite str_app_nil_r. by apply break_none.
    - by apply break_app_hit. }
  rewrite Hopen, Hclose. cbn [negb andb orb mbind PyResult_bind].
  rewrite !split_once_none by done.
  cbn [mbind PyResult_bind s_scheme s_netloc s_path s_query s_fragment].
  destruct (in_list sch uses_params && existsb (is_char ";") bpath);
    [destruct (_splitparams bpath)|]; eauto.
Qed.

(** A rooted path with no query, fragment or parameters parses into
    itself. *)
Lemma urlparse_rooted_path sch p :
  sch = "http" ∨ sch = "https" →
  url_plain "?#;" (String "/" p) →
  startswith "/" p = false →
  urlparse chk (String "/" p) sch = Ok (MkParse sch "" (String "/" p) "" "" "").
Proof.
  intros Hsch Hp Hroot.
  pose proof (url_plain_safe _ _ Hp) as Hsafe.
  pose proof (url_plain_char "?#;" "#" _ eq_refl Hp) as Hfrag.
  pose proof (url_plain_char "?#;" "?" _ eq_refl Hp) as Hquery.
  pose proof (url_plain_char "?#;" ";" _ eq_refl Hp) as Hparams.
  unfold urlparse, urlsplit.
  assert (strip c0_control_or_space sch = sch) as ->
    by (by destruct Hsch as [-> | ->]).
  assert (remove unsafe_url_byte sch = sch) as ->
    by (by destruct Hsch as [-> | ->]).
  change (lstrip c0_control_or_space (String "/" p)) with (String "/" p).
  rewrite remove_none by done.
  rewrite split_scheme_not_alpha by done.
  change (startswith "//" (String "/" p)) with (startswith "/" p).
  rewrite Hroot. cbn [mbind PyResult_bind].
  rewrite !split_once_none by done.
  cbn [mbind PyResult_bind s_scheme s_netloc s_path s_query s_fragment].
  rewrite Hparams. by rewrite andb_false_r.
Qed.

(** Joining a rooted path to a base URL keeps the scheme and the host of
    the base and replaces its path. *)
Lemma urljoin_rooted sch host bpath p :
  sch = "http" ∨ sch = "https" →
  url_plain "/?#[]" host →
  url_plain "?#" bpath →
  bpath = "" ∨ (∃ r, bpath = String "/" r) →
  url_plain "?#;" (String "/" p) →
  startswith "/" p = false →
  no_dots (split_char "/" (String "/" p)) →
  urljoin chk (sch +:+ "://" +:+ host +:+ bpath) (String "/" p)
  = Ok (sch +:+ "://" +:+ host +:+ String "/" p).
Proof.
  intros Hsch Hhost Hbpath Hrooted Hp Hroot Hdots.
  destruct (urlparse_rooted_base sch host bpath Hsch Hhost Hbpath Hrooted)
    as (pth & prm & Hbase).
  unfold urljoin.
  assert (is_empty (sch +:+ "://" +:+ host +:+ bpath) = false) as ->
    by (by destruct Hsch as [-> | ->]).
  cbn [is_empty]. rewrite Hbase. cbn [mbind PyResult_bind scheme].
  rewrite urlparse_rooted_path by done.
  cbn [mbind PyResult_bind scheme netloc path params query fragment].
  rewrite bool_decide_eq_true_2 by done.
  assert (in_list sch uses_relative = true) as ->
    by (by destruct Hsch as [-> | ->]).
  assert (in_list sch uses_netloc = true) as Hnet
    by (by destruct Hsch as [-> | ->]).
  rewrite Hnet. cbn [negb orb andb is_empty].
  change (startswith "/" (String "/" p)) with true. cbv iota.
  rewrite resolve_segments_no_dots by done. cbn [app].
  assert (match last (split_char "/" (String "/" p)) with
          | Some seg => bool_decide (seg = ".") || bool_decide (seg = "..")
          | None => false
          end = false) as Hlast.
  { destruct (last (split_char "/" (String "/" p))) as [seg|] eqn:Hseg; [|done].
    apply last_Some_elem_of in Hseg.
    destruct (proj1 (Forall_forall _ _) Hdots seg Hseg) as [Hdot Hdots'].
    by rewrite !bool_decide_eq_false_2. }
  destruct (last (split_char "/" (String "/" p))) as [seg|].
  - rewrite Hlast. rewrite join_split_char. cbn [is_empty].
    unfold urlunparse, urlunsplit.
    cbn [scheme netloc path params query fragment is_empty negb andb orb].
    change (startswith "//" (String "/" p)) with (startswith "/" p).
    change (startswith "/" (String "/" p)) with true.
    rewrite Hroot, Hnet.
    assert (is_empty sch = false) as -> by (by destruct Hsch as [-> | ->]).
    cbn [negb andb orb]. rewrite orb_true_r. cbv iota. reflexivity.
  - rewrite join_split_char. cbn [is_empty].
    unfold urlunparse, urlunsplit.
    cbn [scheme netloc path params query fragment is_empty negb andb orb].
    change (startswith "//" (String "/" p)) with (startswith "/" p).
    change (startswith "/" (String "/" p)) with true.
    rewrite Hroot, Hnet.
    assert (is_empty sch = false) as -> by (by destruct Hsch as [-> | ->]).
    cbn [negb andb orb]. rewrite orb_true_r. cbv iota. reflexivity.
Qed.

Lemma url_plain_weaken chars chars' s :
  (∀ c, mem c chars' = true → mem c chars = true) →
  url_plain chars s → url_plain chars' s.
Proof.
  intros Hsub. apply existsb_weaken. intros c.
  destruct (mem c chars') eqn:Hc; [by rewrite (Hsub c Hc)|].
  simpl. intros ->. apply orb_true_r.
Qed.

End UrlExtras.

Section ArchiveUrls.
Context `{Externals}.
Import PyStr PyStrFacts UrlParse PublicInbox.

(** X14. With a base URL that is the scheme http or https followed by a
    host, the search goes to the base URL followed by [/all/], and the
    thread of a message is fetched from the base URL followed by
    [/all/<id>/t.mbox.gz] (the id holding none of [/ ? # ;], tab, CR,
    LF and being neither [.] nor [..]); what [__get_thread_root] returns
    is read off the answer to that one request. *)
Theorem archive_urls self m sch host i :
  sch = "http" ∨ sch = "https" →
  url self = sch +:+ "://" +:+ host →
  url_plain "/?#[]" host →
  Message.id m = Some i →
  url_plain "/?#;" i →
  i ≠ "." → i ≠ ".." →
  __get_url self "/all/" = Ok (url self +:+ "/all/")
  ∧ ∀ w,
      __get_thread_root self m w
      = match requests_get (url self +:+ "/all/" +:+ i +:+ "/t.mbox.gz") w with
        | (Raise e, w') => (Raise e, w')
        | (Ok content, w') =>
            (first_parentless <$> __get_mbox_from_content content, w')
        end.
Proof.
  intros Hsch Hurl Hhost Hid Hi Hdot Hdots.
  assert (url self = sch +:+ "://" +:+ host +:+ "") as Hbase
    by (by rewrite str_app_nil_r).
  pose proof (url_plain_char "/?#;" "/" i eq_refl Hi) as Hslash.
  assert (url_plain "?#;" i) as Hi'.
  { revert Hi. apply url_plain_weaken. by intros [[][][][][][][][]]. }
  split.
  - unfold __get_url. rewrite Hbase.
    rewrite (urljoin_rooted _ sch host "" "all/"); try done.
    + by rewrite str_app_nil_r, !str_app_assoc.
    + by left.
    + by repeat constructor.
  - intros w. unfold __get_thread_root, __get_url. rewrite Hid.
    cbn [format_s]. rewrite Hbase.
    change ("/all/" +:+ i +:+ "/t.mbox.gz")
      with (String "/" ("all/" +:+ i +:+ "/t.mbox.gz")).
    rewrite (urljoin_rooted _ sch host "" ("all/" +:+ i +:+ "/t.mbox.gz")).
    + rewrite str_app_nil_r.
      by replace (sch +:+ "://" +:+ host
                  +:+ String "/" ("all/" +:+ i +:+ "/t.mbox.gz"))
        with ((sch +:+ "://" +:+ host) +:+ "/all/" +:+ i +:+ "/t.mbox.gz")
        by (by rewrite !str_app_assoc).
    + done.
    + done.
    + done.
    + by left.
    + unfold url_plain in *.
      change (String "/" ("all/" +:+ i +:+ "/t.mbox.gz"))
        with ("/all/" +:+ i +:+ "/t.mbox.gz").
      by rewrite !existsb_app, Hi'.
    + done.
    + change (String "/" ("all/" +:+ i +:+ "/t.mbox.gz"))
        with ("" +:+ String "/" ("all" +:+ String "/" (i +:+ String "/" "t.mbox.gz"))).
      rewrite !split_char_app by done.
      by repeat constructor.
Qed.


End ArchiveUrls.

Lemma archive_urls_witness :
  @PublicInbox.__get_url (mem_externals lore) lore_inbox "/all/"
  = Ok "https://lore.kernel.org/all/"
  ∧ @PublicInbox.__get_thread_root (mem_externals lore) lore_inbox
      (MkMessage m3a) tt
    = (Ok (Some (MkMessage m0)), tt).
Proof.
  destruct (@archive_urls (mem_externals lore) lore_inbox (MkMessage m3a)
              "https" "lore.kernel.org" "m3a")
    as [Hsearch Hthread];
    [by right|reflexivity|reflexivity|reflexivity|reflexivity
    |discriminate|discriminate|].
  split; [exact Hsearch|]. rewrite Hthread. reflexivity.
Defined.


(** ** The statistics, [show] and the group *)

Section FetchExtras.
Context `{Externals}.

Lemma comprehension_stop {A} (c : A → PyResult bool) items e :
  ∃ e', comprehension c items (Some e) = Raise e'.
Proof.
  induction items as [|a items [e' IH]]; simpl; [eauto|].
  destruct (c a); simpl; [|eauto]. rewrite IH. simpl. eauto.
Qed.

(** X16. When the resolution ends with an exception, neither statistic
    keeps the threads resolved before it: both [fetch] raise, and they
    raise the same exception. *)
Theorem fetch_no_partial_result self w e :
  raised (PublicInbox.get_all_threads (pi self) (since self) (until self) w).1
    = Some e →
  ∃ e', NewThreads_fetch self w = Raise e'
        ∧ InvolvedThreads_fetch self w = Raise e'.
Proof.
  intros Hraised. unfold NewThreads_fetch, InvolvedThreads_fetch.
  rewrite Hraised.
  destruct (comprehension_stop (started_cond self)
              (yielded (PublicInbox.get_all_threads (pi self) (since self)
                          (until self) w).1) e) as [e' He'].
  exists e'. split; [done|].
  rewrite (comprehension_ext (involved_cond self)
             (λ m, negb <$> started_cond self m))
    by apply involved_cond_complement.
  exact (proj1 (comprehension_raise _ _ _ _) He').
Qed.

Lemma comprehension_const {A} (c : A → PyResult bool) items (b : bool) :
  Forall (λ a, c a = Ok b) items →
  comprehension c items None = Ok (if b then items else []).
Proof.
  induction 1 as [|a items Ha _ IH]; simpl; [by destruct b|].
  rewrite Ha, IH. simpl. by destruct b.
Qed.

(** X17. When the resolution ends without an exception and no resolved
    thread is from the user, [NewThreads] keeps none and
    [InvolvedThreads] keeps all of them; no [Date] field is parsed, so
    one that does not parse is no obstacle. *)
Theorem fetch_threads_of_others self w :
  let run :=
    (PublicInbox.get_all_threads (pi self) (since self) (until self) w).1 in
  raised run = None →
  Forall (λ m, Message.is_from_user m (Base.email (stats_user self)) = Ok false)
    (yielded run) →
  NewThreads_fetch self w = Ok []
  ∧ InvolvedThreads_fetch self w = Ok (yielded run).
Proof.
  intros run Hend Hothers. unfold NewThreads_fetch, InvolvedThreads_fetch.
  fold run. rewrite Hend. split.
  - apply (comprehension_const _ _ false).
    eapply Forall_impl; [exact Hothers|]. intros m Hm.
    unfold started_cond. by rewrite Hm.
  - apply (comprehension_const _ _ true).
    eapply Forall_impl; [exact Hothers|]. intros m Hm.
    unfold involved_cond. by rewrite Hm.
Qed.

End FetchExtras.

(** The archive whose reply m7 has no root: m0 and m5 were resolved. *)
Lemma fetch_no_partial_result_witness :
  ∃ e, @NewThreads_fetch (mem_externals lore) report tt = Raise e
       ∧ @InvolvedThreads_fetch (mem_externals lore) report tt = Raise e.
Proof.
  exact (@fetch_no_partial_result (mem_externals lore) report tt AttributeError
           eq_refl).
Defined.

(** Two threads of bob; the date of m6 does not parse. *)
Lemma fetch_threads_of_others_witness :
  @Message.date (mem_externals lore_bob) (MkMessage m6) = Raise ValueError
  ∧ @NewThreads_fetch (mem_externals lore_bob) report tt = Ok []
  ∧ @InvolvedThreads_fetch (mem_externals lore_bob) report tt
    = Ok [MkMessage m5; MkMessage m6].
Proof.
  split; [reflexivity|].
  apply (@fetch_threads_of_others (mem_externals lore_bob) report tt).
  - reflexivity.
  - repeat constructor.
Defined.

Section ShowExtras.
Context `{Externals}.

Lemma show_loop_lines self width stats lines rest :
  lines_of self stats lines →
  show_loop self width (stats ++ rest)
  = MkGen ((lines ≫= shown width) ++ yielded (show_loop self width rest))
      (raised (show_loop self width rest)).
Proof.
  induction 1 as [|m line stats lines [Hs Hl] _ IH]; simpl.
  - by destruct (show_loop self width rest).
  - rewrite Hs, Hl, IH. reflexivity.
Qed.

(** X18. When every message of [self.stats] has a subject and a link,
    [show] raises nothing. It prints nothing when there is no error and
    no message; otherwise it prints the header and then, for each
    message in turn, the subject at level 1 with the width of the
    options and the link at level 2 with width 0. *)
Theorem show_prints_lines self width error stats lines :
  lines_of self stats lines →
  show self width error stats
  = if negb error && bool_decide (stats = []) then MkGen [] None
    else MkGen (Header :: (lines ≫= shown width)) None.
Proof.
  intros Hlines. unfold show. destruct (negb error && _); [done|].
  rewrite <-(List.app_nil_r stats), (show_loop_lines _ _ _ _ [] Hlines).
  simpl. by rewrite List.app_nil_r.
Qed.

(** X19. When a message of [self.stats] has no [Subject] field, [show]
    prints the header and the two lines of each message before it, then
    raises [AttributeError]; nothing is printed for that message or for
    those after it. *)
Theorem show_stops_at_missing_subject self width error before m after lines :
  lines_of self before lines →
  getitem (msg m) "Subject" = None →
  show self width error (before ++ m :: after)
  = MkGen (Header :: (lines ≫= shown width)) (Some AttributeError).
Proof.
  intros Hlines Hnone. unfold show.
  rewrite bool_decide_eq_false_2 by (by destruct before).
  rewrite andb_false_r, (show_loop_lines _ _ _ _ _ Hlines). simpl.
  unfold Message.subject. rewrite Hnone. simpl. by rewrite List.app_nil_r.
Qed.

End ShowExtras.

Lemma show_prints_lines_witness :
  @show (mem_externals lore) report 72 false [MkMessage m0; MkMessage m5]
  = MkGen [Header;
           Item "Re: m0" 1 72; Item "https://lore.kernel.org/r/m0/" 2 0;
           Item "Re: m5" 1 72; Item "https://lore.kernel.org/r/m5/" 2 0]
      None.
Proof.
  apply (@show_prints_lines (mem_externals lore) report 72 false
           [MkMessage m0; MkMessage m5]
           [("Re: m0", "https://lore.kernel.org/r/m0/");
            ("Re: m5", "https://lore.kernel.org/r/m5/")]).
  repeat constructor.
Defined.

Lemma show_stops_at_missing_subject_witness :
  @show (mem_externals lore) report 72 false
    [MkMessage m0; MkMessage untitled; MkMessage m5]
  = MkGen [Header;
           Item "Re: m0" 1 72; Item "https://lore.kernel.org/r/m0/" 2 0]
      (Some AttributeError).
Proof.
  apply (@show_stops_at_missing_subject (mem_externals lore) report 72 false
           [MkMessage m0] (MkMessage untitled) [MkMessage m5]
           [("Re: m0", "https://lore.kernel.org/r/m0/")]).
  - repeat constructor.
  - reflexivity.
Defined.

Section InitExtras.

Lemma dict_lookup_snoc pairs k v k' :
  dict (pairs ++ [(k, v)]) !! k'
  = if decide (k = k') then Some v else dict pairs !! k'.
Proof.
  unfold dict. rewrite foldl_app. simpl. apply lookup_insert.
Qed.

Lemma dict_lookup_None pairs k :
  dict pairs !! k = None ↔ Forall (λ kv, kv.1 ≠ k) pairs.
Proof.
  induction pairs as [|[k0 v0] pairs IH] using rev_ind.
  - split; [constructor|done].
  - rewrite dict_lookup_snoc, Forall_app, Forall_singleton. simpl.
    destruct (decide (k0 = k)) as [->|Hne]; [by split; [|intros [_ ?]]|].
    rewrite IH. tauto.
Qed.

Lemma dict_lookup_last pairs k v after :
  Forall (λ kv, kv.1 ≠ k) after →
  dict (pairs ++ (k, v) :: after) !! k = Some v.
Proof.
  induction after as [|[k0 v0] after IH] using rev_ind; intros Hafter.
  - rewrite dict_lookup_snoc. by rewrite decide_True.
  - rewrite Forall_app, Forall_singleton in Hafter.
    destruct Hafter as [Hafter Hlast].
    replace (pairs ++ (k, v) :: after ++ [(k0, v0)])
      with ((pairs ++ (k, v) :: after) ++ [(k0, v0)])
      by (by rewrite <-List.app_assoc).
    rewrite dict_lookup_snoc. rewrite decide_False by exact Hlast. by apply IH.
Qed.

(** X20. [PublicInboxStats.__init__] raises [ReportError], with a message
    that names the section, exactly when the section has no [url] key.
    Otherwise the inbox is built on the value of [url] (the last one if
    the key is repeated) and on the user of the group, and the group
    holds [InvolvedThreads] and then [NewThreads], named after the
    option. *)
Theorem init_needs_url option user section :
  (Forall (λ kv, kv.1 ≠ "url") section ↔
   PublicInboxStats_init option user section
   = inl (MkReportError ("No url in the [" +:+ option +:+ "] section")))
  ∧ ∀ before v after,
      section = before ++ ("url", v) :: after →
      Forall (λ kv, kv.1 ≠ "url") after →
      PublicInboxStats_init option user section
      = inr (MkPublicInboxStats v (MkPublicInbox v user)
               [InvolvedThreads (option +:+ "-involved");
                NewThreads (option +:+ "-started")]).
Proof.
  unfold PublicInboxStats_init. split.
  - rewrite <-dict_lookup_None. by destruct (dict section !! "url").
  - intros before v after -> Hafter. by rewrite dict_lookup_last.
Qed.

End InitExtras.
